(** * Segment Anything guide: the pre- and post-processing around [model.predict]

    A shallow embedding of [guides/ipynb/keras_hub/segment_anything_in_keras_hub.ipynb]:
    the helper [inference_resizing] (cell 7), the request dictionaries handed to
    [model.predict] (cells 15, 23, 25, 33), the mask thresholding (cells 17, 20)
    and the drawing helpers (cell 7) with the figure of cell 35.

    Python floats are IEEE-754 binary64 and the tensors are float32; both are
    modelled with the executable specification [SpecFloat] of the Standard
    Library, so every definition below evaluates. *)

From Stdlib Require Import ZArith Lia List Bool QArith Qpower Qabs Lqa.
From Stdlib Require Import Floats.SpecFloat.
Import ListNotations.
Open Scope Z_scope.

(** ** Python exceptions and the result of a call *)

Inductive exn := ZeroDivisionError | OverflowError | ValueError | KeyError.

Inductive result (A : Type) : Type :=
| Ok (a : A)
| Raise (e : exn).
Arguments Ok {A} a.
Arguments Raise {A} e.

Definition bind {A B : Type} (r : result A) (k : A -> result B) : result B :=
  match r with
  | Ok a => k a
  | Raise e => Raise e
  end.

Notation "x <- r ;; k" := (bind r (fun x => k))
  (at level 61, r at next level, right associativity).

(** ** Python [float]: binary64 *)

Module F64.
Definition prec : Z := 53.
Definition emax : Z := 1024.
Definition add := SFadd prec emax.
Definition mul := SFmul prec emax.
Definition div := SFdiv prec emax.
Definition of_Z (n : Z) : spec_float := binary_normalize prec emax n 0 false.
Definition zero : spec_float := S754_zero false.
(** The literals [1.0] and [0.5]. *)
Definition one : spec_float := S754_finite false 4503599627370496 (-52).
Definition half : spec_float := S754_finite false 4503599627370496 (-53).
End F64.

(** ** Tensor elements of dtype float32: binary32 *)

Module F32.
Definition prec : Z := 24.
Definition emax : Z := 128.
Definition add := SFadd prec emax.
Definition sub := SFsub prec emax.
Definition mul := SFmul prec emax.
Definition div := SFdiv prec emax.
Definition of_Z (n : Z) : spec_float := binary_normalize prec emax n 0 false.
(** Rounding of a wider float to float32. *)
Definition round (x : spec_float) : spec_float :=
  match x with
  | S754_finite s m e => binary_round prec emax s m e
  | _ => x
  end.
Definition zero : spec_float := S754_zero false.
Definition one : spec_float := S754_finite false 8388608 (-23).
End F32.

(** ** Python arithmetic on [int] and [float] *)

(** [float(n)] as done implicitly by [int * float] and [float / int]: the
    nearest double, [OverflowError] when there is none. *)
Definition py_float_of_int (n : Z) : result spec_float :=
  match F64.of_Z n with
  | S754_infinity _ => Raise OverflowError
  | x => Ok x
  end.

Definition py_int_mul_float (n : Z) (x : spec_float) : result spec_float :=
  a <- py_float_of_int n ;; Ok (F64.mul a x).

Definition py_float_div_int (x : spec_float) (n : Z) : result spec_float :=
  b <- py_float_of_int n ;;
  match b with
  | S754_zero _ => Raise ZeroDivisionError
  | _ => Ok (F64.div x b)
  end.

(** [int(x)]: truncation toward zero. *)
Definition py_int (x : spec_float) : result Z :=
  match x with
  | S754_nan => Raise ValueError
  | S754_infinity _ => Raise OverflowError
  | S754_zero _ => Ok 0
  | S754_finite s m e => Ok (cond_Zopp s (Z.shiftl (Zpos m) e))
  end.

(** ** Arrays *)

Inductive dtype := uint8 | int32 | int64 | float16 | float32 | float64 | bool_.

(** One array element: an integer, a float or a boolean. *)
Inductive scalar :=
| SInt (n : Z)
| SFloat (x : spec_float)
| SBool (b : bool).

(** A rank-3 array (height, width, channels); [t_at] is only read at indices
    inside the shape. *)
Record tensor := mkTensor {
  t_dtype : dtype;
  t_h : Z;
  t_w : Z;
  t_c : Z;
  t_at : Z -> Z -> Z -> scalar
}.

Definition shape (t : tensor) : Z * Z * Z := (t_h t, t_w t, t_c t).

(** Value of an element converted to float32. *)
Definition cast_float32 (v : scalar) : spec_float :=
  match v with
  | SInt n => F32.of_Z n
  | SFloat x => F32.round x
  | SBool b => if b then F32.one else F32.zero
  end.

(** Element of a float tensor; other elements are promoted. *)
Definition fval (v : scalar) : spec_float :=
  match v with
  | SFloat x => x
  | _ => cast_float32 v
  end.

(** [ops.cast(image, dtype="float32")] *)
Definition ops_cast_float32 (t : tensor) : tensor :=
  {| t_dtype := float32; t_h := t_h t; t_w := t_w t; t_c := t_c t;
     t_at := fun i j c => SFloat (cast_float32 (t_at t i j c)) |}.

(** The resampling filter of [ops.image.resize] belongs to Keras: it is a
    parameter, giving the value of the resized image at an index. *)
Definition resampler := tensor -> Z * Z -> Z -> Z -> Z -> spec_float.

(** The array that a resize builds: it has the requested height and width, and
    the channels and dtype of the input. *)
Definition resized (resample : resampler) (t : tensor) (size : Z * Z) : tensor :=
  {| t_dtype := t_dtype t; t_h := fst size; t_w := snd size; t_c := t_c t;
     t_at := fun i j c => SFloat (resample t size i j c) |}.

(** [ops.image.resize(image[None, ...], size)[0]]: Keras refuses a target side
    below 1 with ValueError. *)
Definition ops_image_resize (resample : resampler) (t : tensor) (size : Z * Z)
    : result tensor :=
  if (fst size <? 1) || (snd size <? 1) then Raise ValueError
  else Ok (resized resample t size).

(** A nearest-neighbour filter, as one concrete resampler. *)
Definition resample_nearest : resampler :=
  fun t size i j c => fval (t_at t (i * t_h t / fst size) (j * t_w t / snd size) c).

(** The literals of [pixel_mean] and [pixel_std] as Python reads them (binary64). *)
Definition pixel_mean_literals : list spec_float :=
  [ S754_finite false 8702854436172595 (-46);    (* 123.675 *)
    S754_finite false 8182477572978770 (-46);    (* 116.28 *)
    S754_finite false 7285276084713554 (-46) ].  (* 103.53 *)

Definition pixel_std_literals : list spec_float :=
  [ S754_finite false 8218365632509379 (-47);    (* 58.395 *)
    S754_finite false 8038925334856335 (-47);    (* 57.12 *)
    S754_finite false 8074813394386944 (-47) ].  (* 57.375 *)

(** [ops.array([...])]: a float32 vector, read at a channel index. *)
Definition ops_array (l : list spec_float) (c : Z) : spec_float :=
  nth (Z.to_nat c) (map F32.round l) S754_nan.

Definition pixel_mean : Z -> spec_float := ops_array pixel_mean_literals.
Definition pixel_std : Z -> spec_float := ops_array pixel_std_literals.

(** [image op v] for a vector [v] of length 3, with NumPy broadcasting on the
    last axis: 3 channels match, 1 channel is repeated, anything else fails. *)
Definition broadcast3 (op : spec_float -> spec_float -> spec_float)
    (t : tensor) (v : Z -> spec_float) : result tensor :=
  if (t_c t =? 3) || (t_c t =? 1) then
    Ok {| t_dtype := t_dtype t; t_h := t_h t; t_w := t_w t; t_c := 3;
          t_at := fun i j c =>
            SFloat (op (fval (t_at t i j (if t_c t =? 1 then 0 else c))) (v c)) |}
  else Raise ValueError.

(** [ops.pad(image, [(0, pad_h), (0, pad_w), (0, 0)])]: zeros below and to the right. *)
Definition ops_pad (t : tensor) (pad_h pad_w : Z) : result tensor :=
  if (pad_h <? 0) || (pad_w <? 0) then Raise ValueError
  else
    Ok {| t_dtype := t_dtype t; t_h := t_h t + pad_h; t_w := t_w t + pad_w; t_c := t_c t;
          t_at := fun i j c =>
            if (i <? t_h t) && (j <? t_w t) then t_at t i j c else SFloat F32.zero |}.

(** ** [inference_resizing] (cell 7) *)

(** [scale = 1024 * 1.0 / max(old_h, old_w)] *)
Definition resize_scale (old_h old_w : Z) : result spec_float :=
  num <- py_int_mul_float 1024 F64.one ;;
  py_float_div_int num (Z.max old_h old_w).

(** [preprocess_shape = int(new_h + 0.5), int(new_w + 0.5)] *)
Definition preprocess_shape (old_h old_w : Z) : result (Z * Z) :=
  scale <- resize_scale old_h old_w ;;
  new_h <- py_int_mul_float old_h scale ;;
  new_w <- py_int_mul_float old_w scale ;;
  ph <- py_int (F64.add new_h F64.half) ;;
  pw <- py_int (F64.add new_w F64.half) ;;
  Ok (ph, pw).

(** [x / s] on float32 tensors, as the backend evaluates the division by a
    constant array: [x] times the float32 reciprocal of [s]. *)
Definition reciprocal_div (x s : spec_float) : spec_float :=
  F32.mul x (F32.div F32.one s).

(** The [if pad:] block. *)
Definition pad_shorter_side (image : tensor) : result tensor :=
  image <- broadcast3 F32.sub image pixel_mean ;;
  image <- broadcast3 reciprocal_div image pixel_std ;;
  let h := t_h image in
  let w := t_w image in
  let pad_h := 1024 - h in
  let pad_w := 1024 - w in
  image <- ops_pad image pad_h pad_w ;;
  image <- broadcast3 F32.mul image pixel_std ;;
  broadcast3 F32.add image pixel_mean.

Definition inference_resizing (resample : resampler) (image : tensor) (pad : bool)
    : result tensor :=
  let image := ops_cast_float32 image in
  let old_h := t_h image in
  let old_w := t_w image in
  size <- preprocess_shape old_h old_w ;;
  image <- ops_image_resize resample image size ;;
  if pad then pad_shorter_side image else Ok image.

(** The float32 round trip that [pad_shorter_side] applies to a resized pixel
    of channel [c]. *)
Definition renormalize (c : Z) (x : spec_float) : spec_float :=
  F32.add (F32.mul (reciprocal_div (F32.sub x (pixel_mean c)) (pixel_std c)) (pixel_std c))
          (pixel_mean c).

(** ** Requests to [model.predict] *)

Definition point : Type := scalar * scalar.
Definition box : Type := point * point.

(** The request dictionary; a key that is absent is [None]. *)
Record request := mkRequest {
  images : list tensor;
  points : option (list (list point));
  labels : option (list (list Z));
  boxes : option (list (list box));
  masks : option (list (list tensor))
}.

(** The output dictionary: mask logits and IoU scores per image. *)
Record response := mkResponse {
  out_masks : list (list tensor);
  iou_pred : list (list spec_float)
}.

(** [model.predict] belongs to KerasHub. *)
Definition predictor := request -> result response.

(** NumPy promotion of an element to float64, as [np.concatenate] does when one
    of the arrays is float64. *)
Definition to_float64 (v : scalar) : spec_float :=
  match v with
  | SInt n => F64.of_Z n
  | SFloat x => x
  | SBool b => if b then F64.one else F64.zero
  end.

Definition promote_point (p : point) : point :=
  (SFloat (to_float64 (fst p)), SFloat (to_float64 (snd p))).

(** [np.zeros((1, 1, 2))] holds one point. *)
Definition np_zeros_point : point := (SFloat F64.zero, SFloat F64.zero).

(** Cell 15: the dictionary for a point prompt without a box. *)
Definition point_request (image : tensor) (input_point : list point)
    (input_label : list Z) : request :=
  {| images := [image];
     points := Some [map promote_point input_point ++ [np_zeros_point]];
     labels := Some [input_label ++ [-1]];
     boxes := None;
     masks := None |}.

(** Cell 23: the dictionary for a box prompt. *)
Definition box_request (image : tensor) (input_box : box) : request :=
  {| images := [image];
     points := None;
     labels := None;
     boxes := Some [[input_box]];
     masks := None |}.

(** Cell 25: a box and points together. *)
Definition box_point_request (image : tensor) (input_box : box)
    (input_point : list point) (input_label : list Z) : request :=
  {| images := [image];
     points := Some [input_point];
     labels := Some [input_label];
     boxes := Some [[input_box]];
     masks := None |}.

(** Cell 33: [np.repeat] of the image and [boxes.reshape(-1, 1, 2, 2)], one box
    per batch entry. *)
Definition detected_boxes_request (image : tensor) (detected : list box) : request :=
  {| images := repeat image (length detected);
     points := None;
     labels := None;
     boxes := Some (map (fun b => [b]) detected);
     masks := None |}.

Definition predict_points (predict : predictor) image input_point input_label :=
  predict (point_request image input_point input_label).

Definition predict_box (predict : predictor) image input_box :=
  predict (box_request image input_box).

Definition predict_box_points (predict : predictor) image input_box input_point input_label :=
  predict (box_point_request image input_box input_point input_label).

(** Cells 11 and 23 in sequence, from the image as loaded. *)
Definition segment_box (resample : resampler) (predict : predictor)
    (source : tensor) (input_box : box) : result response :=
  image <- inference_resizing resample source true ;;
  predict_box predict image input_box.

(** Numeric equality of two elements. *)
Definition scalar_eqb (a b : scalar) : bool :=
  match a, b with
  | SInt x, SInt y => x =? y
  | SBool x, SBool y => Bool.eqb x y
  | _, _ => SFeqb (to_float64 a) (to_float64 b)
  end.

(** [new = old * scale], coordinate by coordinate. *)
Definition rescaled_by (scale : spec_float) (old new : scalar) : bool :=
  SFeqb (to_float64 new) (F64.mul (to_float64 old) scale).

Definition point_rescaled_by (scale : spec_float) (old new : point) : bool :=
  rescaled_by scale (fst old) (fst new) && rescaled_by scale (snd old) (snd new).

Definition box_rescaled_by (scale : spec_float) (old new : box) : bool :=
  point_rescaled_by scale (fst old) (fst new) && point_rescaled_by scale (snd old) (snd new).

(** ** Mask post-processing (cells 17 and 20) *)

(** One element of [mask > 0.0]. *)
Definition gt_zero (v : scalar) : bool :=
  match v with
  | SInt n => 0 <? n
  | SFloat x => SFltb F64.zero x
  | SBool b => b
  end.

(** [mask > 0.0] *)
Definition threshold (mask : tensor) : tensor :=
  {| t_dtype := bool_; t_h := t_h mask; t_w := t_w mask; t_c := t_c mask;
     t_at := fun i j c => SBool (gt_zero (t_at mask i j c)) |}.

(** [1 * (mask > 0.0)] *)
Definition threshold_int (mask : tensor) : tensor :=
  {| t_dtype := int64; t_h := t_h mask; t_w := t_w mask; t_c := t_c mask;
     t_at := fun i j c => SInt (if gt_zero (t_at mask i j c) then 1 else 0) |}.

(** An element with a boolean value: [False]/[True], [0]/[1] or [0.0]/[1.0]. *)
Definition is_boolean (v : scalar) : bool :=
  match v with
  | SBool _ => true
  | SInt n => (n =? 0) || (n =? 1)
  | SFloat x => SFeqb x F64.zero || SFeqb x F64.one
  end.

(** Cell 17: resize the best mask without padding, then threshold it. *)
Definition postprocess_mask (resample : resampler) (logits : tensor) : result tensor :=
  mask <- inference_resizing resample logits false ;;
  Ok (threshold mask).

(** ** The spec's formula for the target shape *)

(** The value that [int] returns on a finite double, as a total function. *)
Definition truncate (x : spec_float) : Z :=
  match x with
  | S754_finite s m e => cond_Zopp s (Z.shiftl (Zpos m) e)
  | _ => 0
  end.

(** The spec's words: [scale = 1024 / max(H, W)] and each side rounded half up,
    that is [0.5] added and the sum truncated. *)
Definition spec_scale (H W : Z) : spec_float :=
  F64.div (F64.of_Z 1024) (F64.of_Z (Z.max H W)).

Definition round_half_up (x : spec_float) : Z := truncate (F64.add x F64.half).

Definition spec_target_shape (H W : Z) : Z * Z :=
  (round_half_up (F64.mul (F64.of_Z H) (spec_scale H W)),
   round_half_up (F64.mul (F64.of_Z W) (spec_scale H W))).

(** ** Values of doubles as rationals, for the rounding bounds *)

(** [2 ^ e] for any integer exponent. *)
Definition bpow (e : Z) : Q := Qpower 2 e.

(** The rational that a finite float stands for. *)
Definition SF2Q (f : spec_float) : Q :=
  match f with
  | S754_finite s m e => (if s then -1 else 1) * inject_Z (Zpos m) * bpow e
  | _ => 0
  end.

(** [2 ^ -52], a bound on the relative error of one rounding. *)
Definition eps : Q := 1 # 4503599627370496.

(** A mantissa of exactly 53 bits. *)
Definition normal64 (m : positive) : Prop := 2 ^ 52 <= Zpos m < 2 ^ 53.

(** The value of a resized pixel after the [if pad:] block, and of a padded
    one; the only channel of a one-channel image is read for every [c]. *)
Definition canvas_pixel (t : tensor) (i j c : Z) : spec_float :=
  if (i <? t_h t) && (j <? t_w t)
  then renormalize c (fval (t_at t i j (if t_c t =? 1 then 0 else c)))
  else pixel_mean c.

(** A resampler that returns the image itself when the size does not change. *)
Definition identity_at_same_size (resample : resampler) : Prop :=
  forall (t : tensor) i j c,
    0 <= i < t_h t -> 0 <= j < t_w t ->
    resample t (t_h t, t_w t) i j c = fval (t_at t i j c).

(** The 8-bit pixel values. *)
Definition pixel_values : list Z := map Z.of_nat (seq 0 256).

(** [| renormalize c v - v | <= 2^-16] *)
Definition round_trip_close (c v : Z) : bool :=
  SFleb (SFabs (F32.sub (renormalize c (F32.of_Z v)) (F32.of_Z v)))
        (S754_finite false 8388608 (-39)).

(** The number that an array element stands for. *)
Definition scalar_value (v : scalar) : Q :=
  match v with
  | SInt n => inject_Z n
  | SFloat x => SF2Q x
  | SBool b => if b then 1 else 0
  end.

(** A coordinate that float64 holds exactly: a float, or a pixel index. *)
Definition exact_coordinate (v : scalar) : Prop :=
  match v with
  | SInt n => 0 <= n < 2 ^ 53
  | _ => True
  end.

(** Two points with the same coordinates, as numbers. *)
Definition same_point (p q : point) : Prop :=
  (scalar_value (fst p) == scalar_value (fst q)
   /\ scalar_value (snd p) == scalar_value (snd q))%Q.

(** ** Inputs used in the examples *)

Definition constant_image (dt : dtype) (h w c : Z) (v : scalar) : tensor :=
  {| t_dtype := dt; t_h := h; t_w := w; t_c := c; t_at := fun _ _ _ => v |}.

Definition photo_600x800 : tensor := constant_image uint8 600 800 3 (SInt 0).
Definition strip_1x3000 : tensor := constant_image uint8 1 3000 3 (SInt 0).
Definition black_canvas : tensor := constant_image uint8 1024 1024 3 (SInt 0).
Definition mask_logits : tensor :=
  constant_image float32 256 256 1 (SFloat (S754_finite true 8388608 (-23))).

Definition truck_box : box := ((SInt 240, SInt 340), (SInt 400, SInt 500)).
Definition window_point : point :=
  (SFloat (S754_finite false 4996180836614144 (-44)),     (* 284.0 *)
   SFloat (S754_finite false 7511863440965632 (-45))).    (* 213.5 *)
Definition accept_all : predictor := fun _ => Ok {| out_masks := []; iou_pred := [] |}.

(** ** Drawing helpers (cell 7) and the cells that call them

    A two-dimensional array (a mask) is a tensor with one channel; the axes of
    a figure are the list of artists drawn on them, oldest first. *)

(** The exceptions of NumPy indexing and arithmetic. *)
Inductive np_exn := IndexError | TypeError.

Inductive np_result (A : Type) : Type :=
| Returns (a : A)
| Throws (e : np_exn).
Arguments Returns {A} a.
Arguments Throws {A} e.

Definition np_bind {A B : Type} (r : np_result A) (k : A -> np_result B) : np_result B :=
  match r with
  | Returns a => k a
  | Throws e => Throws e
  end.

Notation "x <-- r ;; k" := (np_bind r (fun x => k))
  (at level 61, r at next level, right associativity).

Inductive marker_color := green | red.

Inductive artist :=
| AxesImage (pixels : tensor)                                   (* [ax.imshow] *)
| PathCollection (xs ys : list scalar) (color : marker_color) (size : Z)  (* [ax.scatter] *)
| Rectangle (x0 y0 w h : scalar).                                (* [ax.add_patch] *)

Definition axes : Type := list artist.

(** The literal [0.6]. *)
Definition alpha_literal : spec_float := S754_finite false 5404319552844595 (-53).

(** [np.array([30 / 255, 144 / 255, 255 / 255, 0.6])] *)
Definition default_color : list spec_float :=
  [ F64.div (F64.of_Z 30) (F64.of_Z 255);
    F64.div (F64.of_Z 144) (F64.of_Z 255);
    F64.div (F64.of_Z 255) (F64.of_Z 255);
    alpha_literal ].

(** The colour of [show_mask]: with [random_color] the three numbers that
    [np.random.random(3)] draws, followed by [0.6]; the fixed blue otherwise. *)
Definition mask_color (random_color : option (spec_float * spec_float * spec_float))
    : list spec_float :=
  match random_color with
  | Some (r, g, b) => [r; g; b] ++ [alpha_literal]
  | None => default_color
  end.

(** [mask.reshape(h, w, 1) * color.reshape(1, 1, -1)]: float64, four channels. *)
Definition mask_image (mask : tensor) (color : list spec_float) : tensor :=
  {| t_dtype := float64; t_h := t_h mask; t_w := t_w mask; t_c := 4;
     t_at := fun i j k =>
       SFloat (F64.mul (to_float64 (t_at mask i j 0)) (nth (Z.to_nat k) color S754_nan)) |}.

(** [ax.imshow] refuses an array without rows or without columns with
    ValueError, and then nothing is added to the axes. *)
Definition show_mask (mask : tensor) (ax : axes)
    (random_color : option (spec_float * spec_float * spec_float)) : result axes :=
  let color := mask_color random_color in
  let image := mask_image mask color in
  if (t_h image <? 1) || (t_w image <? 1) then Raise ValueError
  else Ok (ax ++ [AxesImage image]).

(** [coords[labels == k]]: a boolean index needs one flag per row, except
    that NumPy takes an empty index on an axis of any length, and selects
    nothing. *)
Definition select_label (k : Z) (coords : list point) (labels : list Z)
    : np_result (list point) :=
  if Nat.eqb (length labels) (length coords) || Nat.eqb (length labels) 0 then
    Returns (map fst (filter (fun pl => snd pl =? k) (combine coords labels)))
  else Throws IndexError.

Definition show_points (coords : list point) (labels : list Z) (ax : axes)
    (marker_size : Z) : np_result axes :=
  pos_points <-- select_label 1 coords labels ;;
  neg_points <-- select_label 0 coords labels ;;
  Returns (ax ++ [PathCollection (map fst pos_points) (map snd pos_points) green marker_size;
                  PathCollection (map fst neg_points) (map snd neg_points) red marker_size]).

(** A signed integer of [bits] bits, wrapped. *)
Definition wrap_signed (bits : Z) (z : Z) : Z :=
  (z + 2 ^ (bits - 1)) mod 2 ^ bits - 2 ^ (bits - 1).

Definition int_of (v : scalar) : Z :=
  match v with
  | SInt n => n
  | SBool b => if b then 1 else 0
  | SFloat _ => 0
  end.

(** [a - b] for two elements of an array of dtype [dt]. *)
Definition np_sub (dt : dtype) (a b : scalar) : np_result scalar :=
  match dt with
  | bool_ => Throws TypeError
  | uint8 => Returns (SInt ((int_of a - int_of b) mod 2 ^ 8))
  | int32 => Returns (SInt (wrap_signed 32 (int_of a - int_of b)))
  | int64 => Returns (SInt (wrap_signed 64 (int_of a - int_of b)))
  | float16 => Returns (SFloat (SFsub 11 16 (fval a) (fval b)))
  | float32 => Returns (SFloat (F32.sub (fval a) (fval b)))
  | float64 => Returns (SFloat (SFsub 53 1024 (to_float64 a) (to_float64 b)))
  end.

(** [box[i]] on a flat array. *)
Definition np_index (flat : list scalar) (i : nat) : np_result scalar :=
  match nth_error flat i with
  | Some v => Returns v
  | None => Throws IndexError
  end.

(** [box.reshape(-1)] of an array of boxes, each two corners or one xyxy row. *)
Definition reshape_flat (bs : list box) : list scalar :=
  flat_map (fun b => [fst (fst b); snd (fst b); fst (snd b); snd (snd b)]) bs.

(** [show_box] on the flattened array: the rectangle has a green edge, no
    fill and line width 2. *)
Definition show_box (dt : dtype) (flat : list scalar) (ax : axes) : np_result axes :=
  x0 <-- np_index flat 0 ;;
  y0 <-- np_index flat 1 ;;
  x1 <-- np_index flat 2 ;;
  w <-- np_sub dt x1 x0 ;;
  y1 <-- np_index flat 3 ;;
  h <-- np_sub dt y1 y0 ;;
  Returns (ax ++ [Rectangle x0 y0 w h]).

(** Cell 35 stops at the first exception, of Python or of NumPy. *)
Definition failure : Type := (exn + np_exn)%type.

(** The loop of cell 35 over [outputs["masks"]]: the first mask of each entry
    is resized, thresholded and drawn, and then [show_box(boxes, ...)]. *)
Fixpoint show_detections (resample : resampler) (entries : list (list tensor))
    (dt : dtype) (boxes : list box) (ax : axes) : failure + axes :=
  match entries with
  | [] => inr ax
  | entry :: rest =>
      match entry with
      | [] => inl (inr IndexError)
      | logits :: _ =>
          match postprocess_mask resample logits with
          | Raise e => inl (inl e)
          | Ok mask =>
              match show_mask mask ax None with
              | Raise e => inl (inl e)
              | Ok drawn =>
                  match show_box dt (reshape_flat boxes) drawn with
                  | Throws e => inl (inr e)
                  | Returns ax' => show_detections resample rest dt boxes ax'
                  end
              end
          end
      end
  end.

(** ** Support for the statements about drawing *)

Definition is_rectangle (a : artist) : bool :=
  match a with
  | Rectangle _ _ _ _ => true
  | _ => false
  end.

(** A float that [x > 0.0] accepts. *)
Definition is_positive (x : spec_float) : bool :=
  match x with
  | S754_finite false _ _ => true
  | S754_infinity false => true
  | _ => false
  end.



(** ** Statements of the specification that the code does not satisfy

    Each is stated as the specification words it and refuted below. *)

(** Every image with positive height and width is resized: with pad=False to
    the target shape, with pad=True to 1024 x 1024 x 3. *)
Definition every_positive_image_is_resized : Prop :=
  forall resample (img : tensor),
    0 < t_h img -> 0 < t_w img -> t_c img = 3 ->
    exists rh rw plain padded,
      preprocess_shape (t_h img) (t_w img) = Ok (rh, rw)
      /\ Z.max rh rw = 1024
      /\ inference_resizing resample img false = Ok plain
      /\ shape plain = (rh, rw, t_c img)
      /\ inference_resizing resample img true = Ok padded
      /\ shape padded = (1024, 1024, 3).

(** Prompts given in source-image pixels reach the request multiplied by the
    resize scale. *)
Definition prompts_rescaled_into_canvas : Prop :=
  forall resample (source canvas : tensor) (scale : spec_float) (input_box : box),
    0 < t_h source -> 0 < t_w source -> Z.max (t_h source) (t_w source) < 2 ^ 1023 ->
    t_c source = 3 ->
    inference_resizing resample source true = Ok canvas ->
    resize_scale (t_h source) (t_w source) = Ok scale ->
    exists sent,
      boxes (box_request canvas input_box) = Some [[sent]]
      /\ box_rescaled_by scale input_box sent = true.

(** A request whose point and label lists differ in length is rejected whatever
    the model is, that is, before the model is called. *)
Definition malformed_prompts_rejected : Prop :=
  forall (predict : predictor) (image : tensor) (input_point : list point)
         (input_label : list Z),
    length input_point <> length input_label ->
    exists e, predict_points predict image input_point input_label = Raise e.

(** On the [predict] path the request holds the caller's points and labels and
    nothing else: absent prompts are left out, not padded. *)
Definition predict_path_is_never_padded : Prop :=
  forall (image : tensor) (input_point : list point) (input_label : list Z),
    points (point_request image input_point input_label) = Some [map promote_point input_point]
    /\ labels (point_request image input_point input_label) = Some [input_label]
    /\ boxes (point_request image input_point input_label) = None
    /\ masks (point_request image input_point input_label) = None.

(** A 1024 x 1024 image comes back with every pixel at its original value. *)
Definition canvas_sized_image_unchanged : Prop :=
  forall resample (img : tensor),
    identity_at_same_size resample ->
    t_h img = 1024 -> t_w img = 1024 -> t_c img = 3 ->
    preprocess_shape (t_h img) (t_w img) = Ok (1024, 1024)
    /\ exists out,
         inference_resizing resample img true = Ok out
         /\ shape out = (1024, 1024, 3)
         /\ forall i j c,
              0 <= i < 1024 -> 0 <= j < 1024 -> 0 <= c < 3 ->
              t_at out i j c = SFloat (cast_float32 (t_at img i j c)).

(** * Proofs *)

(** ** Mantissas, digits and shifts *)

Lemma digits2_pos_size (m : positive) : digits2_pos m = Pos.size m.
Proof. induction m as [m IH|m IH|]; simpl; now rewrite ?IH. Qed.

Lemma digits2_bounds (m : positive) :
  2 ^ (Zpos (digits2_pos m) - 1) <= Zpos m < 2 ^ Zpos (digits2_pos m).
Proof.
  rewrite digits2_pos_size.
  pose proof (Pos.size_gt m) as Hgt.
  pose proof (Pos.size_le m) as Hle.
  split.
  - assert (H2 : 2 ^ Zpos (Pos.size m) <= 2 * Zpos m).
    { change (2 * Zpos m) with (Zpos m~0). rewrite <- Pos2Z.inj_pow. now apply Pos2Z.pos_le_pos. }
    replace (Zpos (Pos.size m)) with (Z.succ (Zpos (Pos.size m) - 1)) in H2 by lia.
    rewrite Z.pow_succ_r in H2 by lia. lia.
  - rewrite <- Pos2Z.inj_pow. now apply Pos2Z.pos_lt_pos.
Qed.

Lemma digits2_unique (m : positive) (k : Z) :
  2 ^ (k - 1) <= Zpos m < 2 ^ k -> Zpos (digits2_pos m) = k.
Proof.
  intros [Hlo Hhi].
  pose proof (digits2_bounds m) as [Dlo Dhi].
  set (d := Zpos (digits2_pos m)) in *.
  assert (0 < d) by (unfold d; lia).
  assert (0 < k).
  { destruct (Z_lt_le_dec 0 k); trivial. rewrite (Z.pow_neg_r 2 (k-1)) in Hlo by lia.
    assert (2 ^ k <= 1). { destruct (Z.eq_dec k 0) as [->|]; [simpl; lia|]. rewrite Z.pow_neg_r by lia. lia. }
    lia. }
  destruct (Z_lt_le_dec d k) as [Hlt|Hge].
  - assert (2 ^ d <= 2 ^ (k - 1)) by (apply Z.pow_le_mono_r; lia). lia.
  - destruct (Z_lt_le_dec k d) as [Hlt|Hge']; [|lia].
    assert (2 ^ k <= 2 ^ (d - 1)) by (apply Z.pow_le_mono_r; lia). lia.
Qed.

Lemma iter_pos_nat {A} (f : A -> A) (p : positive) (x : A) :
  iter_pos f p x = Nat.iter (Pos.to_nat p) f x.
Proof.
  revert x; induction p as [p IH|p IH|]; intros x.
  - change (iter_pos f p~1 x) with (iter_pos f p (iter_pos f p (f x))).
    rewrite !IH, Pos2Nat.inj_xI, <- Nat.iter_add, <- Nat.iter_succ_r.
    f_equal; lia.
  - change (iter_pos f p~0 x) with (iter_pos f p (iter_pos f p x)).
    rewrite !IH, Pos2Nat.inj_xO, <- Nat.iter_add.
    f_equal; lia.
  - reflexivity.
Qed.

Lemma shr_1_m mrs : 0 <= shr_m mrs -> shr_m (shr_1 mrs) = shr_m mrs / 2.
Proof.
  destruct mrs as [m r s]; cbn [shr_m]; intros Hm.
  destruct m as [|[p|p|]|p]; cbn [shr_1 shr_m]; try lia; try reflexivity.
  - apply Z.div_unique with 1; lia.
  - apply Z.div_unique with 0; lia.
Qed.

Lemma shr_iter_m (n : nat) mrs :
  0 <= shr_m mrs -> shr_m (Nat.iter n shr_1 mrs) = shr_m mrs / 2 ^ Z.of_nat n.
Proof.
  intros Hm; induction n as [|n IH].
  - simpl. now rewrite Z.div_1_r.
  - rewrite Nat2Z.inj_succ, Z.pow_succ_r by lia. simpl.
    rewrite shr_1_m.
    + rewrite IH, Z.div_div by lia. now rewrite Z.mul_comm.
    + rewrite IH. apply Z.div_pos; lia.
Qed.

Lemma shr_m_spec mrs e (n : Z) :
  0 <= shr_m mrs -> 0 <= n ->
  shr_m (fst (shr mrs e n)) = shr_m mrs / 2 ^ n /\ snd (shr mrs e n) = e + n.
Proof.
  intros Hm Hn. destruct n as [|p|p]; simpl; try lia.
  - now rewrite Z.div_1_r, Z.add_0_r.
  - rewrite iter_pos_nat, shr_iter_m by trivial. now rewrite positive_nat_Z.
Qed.

Lemma round_nearest_even_cases m l :
  round_nearest_even m l = m \/ round_nearest_even m l = m + 1.
Proof. destruct l as [|[]]; simpl; auto. destruct (Z.even m); auto. Qed.

Lemma shr_record_of_loc_m m l : shr_m (shr_record_of_loc m l) = m.
Proof. destruct l as [|[]]; reflexivity. Qed.

Lemma fexp64_normal k : -1074 <= k - 53 -> fexp 53 1024 k = k - 53.
Proof. intros H. unfold fexp, emin. lia. Qed.

Lemma binary_round_aux_spec (m : positive) (e : Z) (l : location) :
  let d := Zpos (digits2_pos m) in
  53 <= d -> -1074 <= d + e - 53 -> d + e <= 1023 ->
  exists m3 e3 m2,
    binary_round_aux 53 1024 false (Zpos m) e l = S754_finite false m3 e3
    /\ (m2 = Zpos m / 2 ^ (d - 53) \/ m2 = Zpos m / 2 ^ (d - 53) + 1)
    /\ 2 ^ 52 <= Zpos m3 < 2 ^ 53
    /\ ((Zpos m3 = m2 /\ e3 = d + e - 53) \/ (2 * Zpos m3 = m2 /\ e3 = d + e - 52)).
Proof.
  intros d Hd Hlo Hhi.
  pose proof (digits2_bounds m) as [Dlo Dhi]. fold d in Dlo, Dhi.
  set (n := d - 53).
  set (q := Zpos m / 2 ^ n).
  assert (Hn : 0 <= n) by (unfold n; lia).
  assert (Hpow : 0 < 2 ^ n) by (apply Z.pow_pos_nonneg; lia).
  assert (Hq : 2 ^ 52 <= q < 2 ^ 53).
  { unfold q; split.
    - apply Z.div_le_lower_bound; trivial.
      rewrite <- Z.pow_add_r by lia. replace (n + 52) with (d - 1) by (unfold n; lia). trivial.
    - apply Z.div_lt_upper_bound; trivial.
      rewrite <- Z.pow_add_r by lia. replace (n + 53) with d by (unfold n; lia). trivial. }
  unfold binary_round_aux, shr_fexp.
  cbn [Zdigits2]. fold d.
  rewrite fexp64_normal by lia.
  replace (d + e - 53 - e) with n by (unfold n; lia).
  destruct (shr_m_spec (shr_record_of_loc (Zpos m) l) e n) as [Hm1 He1];
    [rewrite shr_record_of_loc_m; lia | trivial |].
  rewrite shr_record_of_loc_m in Hm1. fold q in Hm1.
  destruct (shr (shr_record_of_loc (Zpos m) l) e n) as [mrs1 e1].
  cbn [fst snd] in Hm1, He1. subst e1.
  rewrite Hm1.
  set (m2 := round_nearest_even q (loc_of_shr_record mrs1)).
  assert (Hm2 : m2 = q \/ m2 = q + 1) by apply round_nearest_even_cases.
  assert (Hm2pos : 0 < m2) by lia.
  destruct m2 as [|p2|p2] eqn:Ep2; try lia.
  destruct (Z_lt_le_dec (Zpos p2) (2 ^ 53)) as [Hlt|Hge].
  - (* no carry *)
    assert (Hd2 : Zpos (digits2_pos p2) = 53) by (apply digits2_unique; lia).
    cbn [Zdigits2]. rewrite Hd2.
    rewrite fexp64_normal by (unfold n; lia).
    replace (53 + (e + n) - 53 - (e + n)) with 0 by lia.
    cbn [shr shr_record_of_loc shr_m].
    replace (e + n <=? 1024 - 53) with true by (symmetry; apply Z.leb_le; unfold n; lia).
    exists p2, (e + n), (Zpos p2).
    unfold n. repeat split; lia.
  - (* carry into the next binade *)
    assert (Hp2 : Zpos p2 = 2 ^ 53) by lia.
    assert (Hd2 : Zpos (digits2_pos p2) = 54) by (apply digits2_unique; lia).
    cbn [Zdigits2]. rewrite Hd2.
    rewrite fexp64_normal by (unfold n; lia).
    replace (54 + (e + n) - 53 - (e + n)) with 1 by lia.
    assert (Ep : p2 = 9007199254740992%positive) by (apply Pos2Z.inj; rewrite Hp2; reflexivity).
    subst p2.
    cbn [shr shr_record_of_loc iter_pos shr_1 shr_m].
    replace (e + n + 1 <=? 1024 - 53) with true by (symmetry; apply Z.leb_le; unfold n; lia).
    exists 4503599627370496%positive, (e + n + 1), (2 ^ 53).
    unfold n. repeat split; lia.
Qed.

(** ** Relative error of the binary64 operations

    Each operation on positive normal doubles, away from overflow and
    underflow, returns a positive normal double within [eps] of the exact
    result. *)

Lemma bpow_pos e : (0 < bpow e)%Q.
Proof. unfold bpow. apply Qpower_0_lt. reflexivity. Qed.

Lemma bpow_add a b : (bpow (a + b) == bpow a * bpow b)%Q.
Proof. unfold bpow. apply Qpower_plus. discriminate. Qed.

Lemma bpow_Z n : 0 <= n -> (inject_Z (2 ^ n) == bpow n)%Q.
Proof. intros H. unfold bpow. now rewrite Zpower_Qpower. Qed.

Lemma round_aux_rel (m : positive) (e : Z) (l : location) :
  let d := Zpos (digits2_pos m) in
  53 <= d -> -1074 <= d + e - 53 -> d + e <= 1023 ->
  exists m3 e3,
    binary_round_aux 53 1024 false (Zpos m) e l = S754_finite false m3 e3
    /\ 2 ^ 52 <= Zpos m3 < 2 ^ 53
    /\ d + e - 53 <= e3 <= d + e - 52
    /\ ((1 - eps) * (inject_Z (Zpos m) * bpow e) <= inject_Z (Zpos m3) * bpow e3
        <= (1 + eps) * (inject_Z (Zpos m) * bpow e))%Q.
Proof.
  intros d Hd Hlo Hhi.
  destruct (binary_round_aux_spec m e l Hd Hlo Hhi) as (m3 & e3 & m2 & Hr & Hm2 & Hm3 & Hcase).
  fold d in Hm2, Hcase.
  exists m3, e3. split; [exact Hr|]. split; [exact Hm3|]. split; [lia|].
  pose proof (digits2_bounds m) as [Dlo _]. fold d in Dlo.
  set (n := d - 53) in *.
  assert (Hn : 0 <= n) by (unfold n; lia).
  assert (Hpow : 0 < 2 ^ n) by (apply Z.pow_pos_nonneg; lia).
  assert (Hdiv1 : 2 ^ n * (Zpos m / 2 ^ n) <= Zpos m) by (apply Z.mul_div_le; trivial).
  assert (Hdiv2 : Zpos m < 2 ^ n * Z.succ (Zpos m / 2 ^ n)) by (apply Z.mul_succ_div_gt; trivial).
  assert (Hbig : 2 ^ n * 2 ^ 52 <= Zpos m).
  { rewrite <- Z.pow_add_r by lia. replace (n + 52) with (d - 1) by (unfold n; lia). trivial. }
  assert (Hval : (inject_Z (Zpos m3) * bpow e3 == inject_Z (m2 * 2 ^ n) * bpow e)%Q).
  { rewrite inject_Z_mult, bpow_Z by trivial.
    destruct Hcase as [[E1 E2]|[E1 E2]].
    - rewrite E1, E2. replace (d + e - 53) with (n + e) by (unfold n; lia).
      rewrite bpow_add. ring.
    - rewrite <- E1, E2, inject_Z_mult. replace (d + e - 52) with (1 + (n + e)) by (unfold n; lia).
      rewrite !bpow_add. change (bpow 1) with (2%Q). change (inject_Z 2) with 2%Q. ring. }
  rewrite Hval.
  set (A := m2 * 2 ^ n) in *.
  assert (HA1 : A * 2 ^ 52 <= Zpos m + Zpos m * 2 ^ 52) by (unfold A; nia).
  assert (HA2 : Zpos m * 2 ^ 52 <= Zpos m + A * 2 ^ 52) by (unfold A; nia).
  rewrite Zle_Qle in HA1, HA2.
  rewrite !inject_Z_plus, !inject_Z_mult in HA1, HA2.
  change (inject_Z (2 ^ 52)) with (4503599627370496 # 1)%Q in HA1, HA2.
  pose proof (bpow_pos e) as Hb.
  set (b := bpow e) in *. set (qa := inject_Z A) in *. set (qm := inject_Z (Zpos m)) in *.
  unfold eps. split; nra.
Qed.

Lemma SF2Q_pos m e : (SF2Q (S754_finite false m e) == inject_Z (Zpos m) * bpow e)%Q.
Proof. unfold SF2Q. ring. Qed.

Lemma pos_iter_xO (m k : positive) : Zpos (Pos.iter xO m k) = Zpos m * 2 ^ Zpos k.
Proof.
  induction k as [|k IH] using Pos.peano_ind.
  - simpl. lia.
  - rewrite Pos.iter_succ, Pos2Z.inj_xO, IH, Pos2Z.inj_succ, Z.pow_succ_r by lia. ring.
Qed.

Lemma digits2_log2 (m : positive) : Zpos (digits2_pos m) = Z.log2 (Zpos m) + 1.
Proof.
  apply digits2_unique.
  replace (Z.log2 (Zpos m) + 1 - 1) with (Z.log2 (Zpos m)) by lia.
  replace (Z.log2 (Zpos m) + 1) with (Z.succ (Z.log2 (Zpos m))) by lia.
  apply Z.log2_spec. lia.
Qed.

(** Conversion of a positive integer below 2^1023. *)
Lemma of_Z_rel (n : Z) :
  0 < n < 2 ^ 1023 ->
  exists m e,
    F64.of_Z n = S754_finite false m e /\ normal64 m
    /\ Z.log2 n - 52 <= e <= Z.log2 n - 51
    /\ ((1 - eps) * inject_Z n <= SF2Q (S754_finite false m e) <= (1 + eps) * inject_Z n)%Q.
Proof.
  intros [Hpos Hlt].
  destruct n as [|p|p]; try lia.
  pose proof (digits2_log2 p) as Hd.
  pose proof (digits2_bounds p) as [Dlo Dhi].
  assert (Hd1023 : Zpos (digits2_pos p) <= 1023).
  { destruct (Z_lt_le_dec 1023 (Zpos (digits2_pos p))) as [Hgt|]; [|lia].
    assert (2 ^ 1023 <= 2 ^ (Zpos (digits2_pos p) - 1)) by (apply Z.pow_le_mono_r; lia). lia. }
  unfold F64.of_Z, binary_normalize, binary_round, F64.prec, F64.emax.
  rewrite fexp64_normal by lia.
  unfold shl_align.
  destruct (Zpos (digits2_pos p) + 0 - 53 - 0) as [|k|k] eqn:Ek.
  - (* exactly 53 digits *)
    destruct (round_aux_rel p 0 loc_Exact) as (m3 & e3 & Hr & Hn & He & Hv); try lia.
    exists m3, e3. rewrite Hr. split; [reflexivity|]. split; [exact Hn|]. split; [lia|].
    rewrite SF2Q_pos. change (bpow 0) with 1%Q in Hv. rewrite Qmult_1_r in Hv. exact Hv.
  - (* more than 53 digits: rounding *)
    destruct (round_aux_rel p 0 loc_Exact) as (m3 & e3 & Hr & Hn & He & Hv); try lia.
    exists m3, e3. rewrite Hr. split; [reflexivity|]. split; [exact Hn|]. split; [lia|].
    rewrite SF2Q_pos. change (bpow 0) with 1%Q in Hv. rewrite Qmult_1_r in Hv. exact Hv.
  - (* fewer than 53 digits: the mantissa is shifted left, exactly *)
    set (mz := Pos.iter xO p k).
    assert (Hmz : Zpos mz = Zpos p * 2 ^ Zpos k) by apply pos_iter_xO.
    assert (Hk : Zpos k = 53 - Zpos (digits2_pos p)) by lia.
    assert (Hdz : Zpos (digits2_pos mz) = 53).
    { apply digits2_unique. rewrite Hmz. split.
      - replace (53 - 1) with (Zpos (digits2_pos p) - 1 + Zpos k) by lia.
        rewrite Z.pow_add_r by lia. apply Z.mul_le_mono_nonneg_r; [lia|exact Dlo].
      - replace (2 ^ 53) with (2 ^ (Zpos (digits2_pos p) + Zpos k)) by (f_equal; lia).
        rewrite Z.pow_add_r by lia. apply Z.mul_lt_mono_pos_r; [lia|exact Dhi]. }
    destruct (round_aux_rel mz (Zpos (digits2_pos p) + 0 - 53) loc_Exact)
      as (m3 & e3 & Hr & Hn & He & Hv); try lia.
    exists m3, e3. rewrite Hr. split; [reflexivity|]. split; [exact Hn|]. split; [lia|].
    rewrite SF2Q_pos.
    assert (Hx : (inject_Z (Zpos mz) * bpow (Zpos (digits2_pos p) + 0 - 53) == inject_Z (Zpos p))%Q).
    { rewrite Hmz, inject_Z_mult, bpow_Z by lia.
      rewrite <- Qmult_assoc, <- bpow_add.
      replace (Zpos k + (Zpos (digits2_pos p) + 0 - 53)) with 0 by lia.
      change (bpow 0) with 1%Q. ring. }
    rewrite Hx in Hv. exact Hv.
Qed.

Lemma pow2_digits_range (m : positive) (a b : Z) :
  0 <= a -> 2 ^ a <= Zpos m < 2 ^ b -> a + 1 <= Zpos (digits2_pos m) <= b.
Proof.
  intros Ha [Hlo Hhi].
  pose proof (digits2_bounds m) as [Dlo Dhi].
  set (d := Zpos (digits2_pos m)) in *.
  assert (0 < d) by (unfold d; lia).
  split.
  - destruct (Z_lt_le_dec d (a + 1)) as [Hlt|]; [|lia].
    assert (2 ^ d <= 2 ^ a) by (apply Z.pow_le_mono_r; lia). lia.
  - destruct (Z_lt_le_dec b d) as [Hlt|]; [|lia].
    destruct (Z_lt_le_dec b 0) as [Hneg|Hnn].
    + rewrite Z.pow_neg_r in Hhi by lia. lia.
    + assert (2 ^ b <= 2 ^ (d - 1)) by (apply Z.pow_le_mono_r; lia). lia.
Qed.

(** Product of two positive normal doubles, away from overflow and underflow. *)
Lemma mul_rel (mx : positive) (ex : Z) (my : positive) (ey : Z) :
  normal64 mx -> normal64 my -> -1126 <= ex + ey <= 917 ->
  exists m e,
    F64.mul (S754_finite false mx ex) (S754_finite false my ey) = S754_finite false m e
    /\ normal64 m
    /\ ex + ey + 52 <= e <= ex + ey + 54
    /\ ((1 - eps) * (SF2Q (S754_finite false mx ex) * SF2Q (S754_finite false my ey))
        <= SF2Q (S754_finite false m e)
        <= (1 + eps) * (SF2Q (S754_finite false mx ex) * SF2Q (S754_finite false my ey)))%Q.
Proof.
  intros Hx Hy He. unfold normal64 in *.
  assert (Hprod : 2 ^ 104 <= Zpos (mx * my) < 2 ^ 106).
  { rewrite Pos2Z.inj_mul.
    change (2 ^ 104) with (2 ^ 52 * 2 ^ 52). change (2 ^ 106) with (2 ^ 53 * 2 ^ 53). nia. }
  pose proof (pow2_digits_range (mx * my) 104 106 ltac:(lia) Hprod) as Hd.
  unfold F64.mul, SFmul, F64.prec, F64.emax. cbn [xorb].
  destruct (round_aux_rel (mx * my) (ex + ey) loc_Exact) as (m3 & e3 & Hr & Hn & He3 & Hv); try lia.
  exists m3, e3. split; [exact Hr|]. split; [exact Hn|]. split; [lia|].
  rewrite !SF2Q_pos.
  rewrite Pos2Z.inj_mul, inject_Z_mult, bpow_add in Hv.
  set (a := inject_Z (Zpos mx)) in *. set (b := inject_Z (Zpos my)) in *.
  set (u := bpow ex) in *. set (v := bpow ey) in *.
  set (r := (inject_Z (Zpos m3) * bpow e3)%Q) in *.
  setoid_replace (a * u * (b * v))%Q with (a * b * (u * v))%Q by ring.
  exact Hv.
Qed.

Lemma shl_align_fst (m : positive) (e ez : Z) :
  ez <= e -> Zpos (fst (shl_align m e ez)) = Zpos m * 2 ^ (e - ez).
Proof.
  intros H. unfold shl_align.
  destruct (ez - e) as [|d|d] eqn:E; cbn [fst]; try lia.
  - replace (e - ez) with 0 by lia. lia.
  - rewrite pos_iter_xO. f_equal. f_equal. lia.
Qed.

(** [x + 0.5] for a positive normal double. *)
Lemma add_half_rel (mx : positive) (ex : Z) :
  normal64 mx -> -1074 <= ex <= 960 ->
  exists m e,
    F64.add (S754_finite false mx ex) F64.half = S754_finite false m e
    /\ normal64 m
    /\ ((1 - eps) * (SF2Q (S754_finite false mx ex) + (1 # 2))
        <= SF2Q (S754_finite false m e)
        <= (1 + eps) * (SF2Q (S754_finite false mx ex) + (1 # 2)))%Q.
Proof.
  intros Hx He. unfold normal64 in Hx.
  unfold F64.add, SFadd, F64.half, F64.prec, F64.emax. cbn [cond_Zopp].
  set (ez := Z.min ex (-53)).
  assert (Hez1 : ez <= ex) by (unfold ez; lia).
  assert (Hez2 : ez <= -53) by (unfold ez; lia).
  pose proof (shl_align_fst mx ex ez Hez1) as Ha.
  pose proof (shl_align_fst 4503599627370496 (-53) ez Hez2) as Hb.
  set (a := fst (shl_align mx ex ez)) in *.
  set (b := fst (shl_align 4503599627370496 (-53) ez)) in *.
  change (Zpos a + Zpos b) with (Zpos (a + b)).
  assert (Hs : Zpos (a + b) = Zpos mx * 2 ^ (ex - ez) + 2 ^ 52 * 2 ^ (-53 - ez)).
  { rewrite Pos2Z.inj_add, Ha, Hb. reflexivity. }
  set (k := Z.max ex (-53) - ez).
  assert (Hk : 0 <= k) by (unfold k, ez; lia).
  assert (Hp1 : 1 <= 2 ^ (ex - ez)) by (apply (Z.pow_le_mono_r 2 0); lia).
  assert (Hp2 : 1 <= 2 ^ (-53 - ez)) by (apply (Z.pow_le_mono_r 2 0); lia).
  assert (Hp3 : 2 ^ (ex - ez) <= 2 ^ k) by (apply Z.pow_le_mono_r; unfold k; lia).
  assert (Hp4 : 2 ^ (-53 - ez) <= 2 ^ k) by (apply Z.pow_le_mono_r; unfold k; lia).
  assert (Hrange : 2 ^ 53 <= Zpos (a + b) < 2 ^ (54 + k)).
  { rewrite Hs. split.
    - change (2 ^ 53) with (2 ^ 52 + 2 ^ 52). nia.
    - rewrite Z.pow_add_r by lia. change (2 ^ 54) with (2 ^ 53 + 2 ^ 53). nia. }
  pose proof (pow2_digits_range (a + b) 53 (54 + k) ltac:(lia) Hrange) as Hd.
  unfold binary_normalize, binary_round.
  rewrite fexp64_normal by lia.
  unfold shl_align.
  destruct (Zpos (digits2_pos (a + b)) + ez - 53 - ez) as [|d|d] eqn:Ed; try lia.
  destruct (round_aux_rel (a + b) ez loc_Exact) as (m3 & e3 & Hr & Hn & He3 & Hv);
    try (unfold k, ez in *; lia).
  exists m3, e3. split; [exact Hr|]. split; [exact Hn|].
  assert (Hval : (inject_Z (Zpos (a + b)) * bpow ez
                  == SF2Q (S754_finite false mx ex) + (1 # 2))%Q).
  { rewrite Hs, inject_Z_plus, !inject_Z_mult, !bpow_Z by lia.
    rewrite SF2Q_pos.
    change (inject_Z (2 ^ 52)) with (bpow 52).
    rewrite Qmult_plus_distr_l, <- !Qmult_assoc, <- !bpow_add.
    replace (ex - ez + ez) with ex by lia.
    replace (52 + (-53 - ez + ez)) with (-1) by lia.
    change (bpow (-1)) with (1 # 2)%Q. reflexivity. }
  rewrite Hval in Hv. exact Hv.
Qed.

(** [int(x)] of a positive double is the floor of its value. *)
Lemma shiftl_floor (m : positive) (e : Z) :
  (inject_Z (Z.shiftl (Zpos m) e) <= SF2Q (S754_finite false m e)
   < inject_Z (Z.shiftl (Zpos m) e) + 1)%Q.
Proof.
  rewrite SF2Q_pos.
  destruct (Z_le_gt_dec 0 e) as [Hnn|Hneg].
  - rewrite Z.shiftl_mul_pow2, inject_Z_mult, bpow_Z by trivial. split; lra.
  - rewrite Z.shiftl_div_pow2 by lia.
    set (k := - e) in *.
    assert (Hpow : 0 < 2 ^ k) by (apply Z.pow_pos_nonneg; unfold k; lia).
    pose proof (Z.mul_div_le (Zpos m) (2 ^ k) Hpow) as H1.
    pose proof (Z.mul_succ_div_gt (Zpos m) (2 ^ k) Hpow) as H2.
    set (t := Zpos m / 2 ^ k) in *.
    rewrite Zle_Qle in H1. rewrite Zlt_Qlt in H2.
    unfold Z.succ in H2.
    rewrite inject_Z_mult, bpow_Z in H1 by (unfold k; lia).
    rewrite inject_Z_mult, inject_Z_plus, bpow_Z in H2 by (unfold k; lia).
    pose proof (bpow_pos k) as Hb. pose proof (bpow_pos e) as Hb'.
    assert (Hinv : (bpow k * bpow e == 1)%Q).
    { rewrite <- bpow_add. replace (k + e) with 0 by (unfold k; lia). reflexivity. }
    change (inject_Z 1) with 1%Q in H2.
    set (u := bpow k) in *. set (v := bpow e) in *.
    set (qt := inject_Z t) in *. set (qm := inject_Z (Zpos m)) in *.
    assert (E1 : (u * qt * v == qt)%Q).
    { setoid_replace (u * qt * v)%Q with (qt * (u * v))%Q by ring. rewrite Hinv. ring. }
    assert (E2 : (u * (qt + 1) * v == qt + 1)%Q).
    { setoid_replace (u * (qt + 1) * v)%Q with ((qt + 1) * (u * v))%Q by ring. rewrite Hinv. ring. }
    assert (L1 : (u * qt * v <= qm * v)%Q) by (apply Qmult_le_compat_r; lra).
    assert (L2 : (qm * v < u * (qt + 1) * v)%Q) by (apply Qmult_lt_compat_r; lra).
    split; lra.
Qed.

(** [1024.0 / b] for a positive normal double [b]. *)
Lemma div_1024_rel (mb : positive) (eb : Z) :
  normal64 mb -> -52 <= eb <= 971 ->
  exists m e,
    F64.div (S754_finite false 4503599627370496 (-42)) (S754_finite false mb eb)
      = S754_finite false m e
    /\ normal64 m
    /\ -95 - eb <= e <= -93 - eb
    /\ ((1 - eps) * (1 - eps) * 1024
        <= SF2Q (S754_finite false mb eb) * SF2Q (S754_finite false m e)
        <= (1 + eps) * 1024)%Q.
Proof.
  intros Hb He. unfold normal64 in Hb.
  assert (Hdb : Zpos (digits2_pos mb) = 53) by (apply digits2_unique; lia).
  unfold F64.div, SFdiv, SFdiv_core_binary, F64.prec, F64.emax. cbn [xorb Zdigits2].
  rewrite Hdb. change (Zpos (digits2_pos 4503599627370496)) with 53.
  rewrite fexp64_normal by lia.
  replace (Z.min (53 + -42 - (53 + eb) - 53) (-42 - eb)) with (-95 - eb) by lia.
  replace (-42 - eb - (-95 - eb)) with 53 by lia.
  change (Z.shiftl 4503599627370496 53) with (2 ^ 105).
  pose proof (Z_div_mod (2 ^ 105) (Zpos mb) ltac:(lia)) as Hdm.
  destruct (Z.div_eucl (2 ^ 105) (Zpos mb)) as [q r].
  destruct Hdm as [Hq Hr].
  assert (Hqr : 2 ^ 52 <= q <= 2 ^ 53).
  { change (2 ^ 105) with (2 ^ 52 * 2 ^ 53) in Hq. split; nia. }
  destruct q as [|pq|pq]; try lia.
  assert (Hqr' : 2 ^ 52 <= Zpos pq < 2 ^ 54) by (change (2 ^ 54) with (2 * 2 ^ 53); lia).
  pose proof (pow2_digits_range pq 52 54 ltac:(lia) Hqr') as Hd.
  destruct (round_aux_rel pq (-95 - eb) (new_location (Zpos mb) r))
    as (m3 & e3 & Hres & Hn & He3 & Hv); try lia.
  exists m3, e3. split; [exact Hres|]. split; [exact Hn|]. split; [lia|].
  rewrite (SF2Q_pos mb eb), (SF2Q_pos m3 e3).
  assert (Hlo : 2 ^ 105 - 2 ^ 53 <= Zpos mb * Zpos pq) by lia.
  assert (Hhi : Zpos mb * Zpos pq <= 2 ^ 105) by lia.
  rewrite Zle_Qle in Hlo, Hhi. rewrite inject_Z_mult in Hlo, Hhi.
  assert (Hc : (bpow eb * bpow (-95 - eb) == 1 # 39614081257132168796771975168)%Q).
  { rewrite <- bpow_add. replace (eb + (-95 - eb)) with (-95) by lia. reflexivity. }
  pose proof (bpow_pos eb) as Hpb. pose proof (bpow_pos (-95 - eb)) as Hpe.
  set (B := inject_Z (Zpos mb)) in *. set (Qq := inject_Z (Zpos pq)) in *.
  set (u := bpow eb) in *. set (v := bpow (-95 - eb)) in *.
  set (S := (inject_Z (Zpos m3) * bpow e3)%Q) in *.
  assert (HB : (0 <= B * u)%Q).
  { apply Qmult_le_0_compat; [|lra]. unfold B. change 0%Q with (inject_Z 0). rewrite <- Zle_Qle. lia. }
  destruct Hv as [Hv1 Hv2].
  assert (L1 : ((1 - eps) * (Qq * v) * (B * u) <= S * (B * u))%Q)
    by (apply Qmult_le_compat_r; trivial).
  assert (L2 : (S * (B * u) <= (1 + eps) * (Qq * v) * (B * u))%Q)
    by (apply Qmult_le_compat_r; trivial).
  assert (E : forall c : Q, (c * (Qq * v) * (B * u) == c * (B * Qq) * (u * v))%Q) by (intros; ring).
  rewrite E, Hc in L1, L2.
  change (inject_Z (2 ^ 105 - 2 ^ 53)) with (40564819207303331840695247831040 # 1)%Q in Hlo.
  change (inject_Z (2 ^ 105)) with (40564819207303340847894502572032 # 1)%Q in Hhi.
  set (P := (B * Qq)%Q) in *.
  unfold eps in *. split; lra.
Qed.

(** A mantissa of 53 bits is not rounded. *)
Lemma binary_round_aux_exact (m : positive) (e : Z) :
  Zpos (digits2_pos m) = 53 -> -1074 <= e <= 971 ->
  binary_round_aux 53 1024 false (Zpos m) e loc_Exact = S754_finite false m e.
Proof.
  intros Hd He. unfold binary_round_aux, shr_fexp. cbn [Zdigits2]. rewrite Hd.
  rewrite fexp64_normal by lia.
  replace (53 + e - 53 - e) with 0 by lia.
  cbn [shr shr_record_of_loc shr_m loc_of_shr_record round_nearest_even Zdigits2].
  rewrite Hd, fexp64_normal by lia.
  replace (53 + e - 53 - e) with 0 by lia.
  cbn [shr shr_record_of_loc shr_m].
  replace (e <=? 1024 - 53) with true by (symmetry; apply Z.leb_le; lia).
  reflexivity.
Qed.

(** Integers below 2^53 convert to float64 without rounding. *)
Lemma of_Z_exact (n : Z) :
  0 <= n < 2 ^ 53 -> (SF2Q (F64.of_Z n) == inject_Z n)%Q.
Proof.
  intros [Hlo Hhi].
  destruct n as [|p|p]; try lia; [reflexivity|].
  pose proof (digits2_bounds p) as [Dlo Dhi].
  pose proof (pow2_digits_range p 0 53 ltac:(lia) ltac:(split; [change (2 ^ 0) with 1; lia|lia])) as Hd.
  unfold F64.of_Z, binary_normalize, binary_round, F64.prec, F64.emax.
  rewrite fexp64_normal by lia.
  unfold shl_align.
  destruct (Zpos (digits2_pos p) + 0 - 53 - 0) as [|k|k] eqn:Ek; try lia.
  - rewrite binary_round_aux_exact by lia.
    rewrite SF2Q_pos. change (bpow 0) with 1%Q. ring.
  - set (mz := Pos.iter xO p k).
    assert (Hmz : Zpos mz = Zpos p * 2 ^ Zpos k) by apply pos_iter_xO.
    assert (Hdz : Zpos (digits2_pos mz) = 53).
    { apply digits2_unique. rewrite Hmz. split.
      - replace (53 - 1) with (Zpos (digits2_pos p) - 1 + Zpos k) by lia.
        rewrite Z.pow_add_r by lia. apply Z.mul_le_mono_nonneg_r; [lia|exact Dlo].
      - replace (2 ^ 53) with (2 ^ (Zpos (digits2_pos p) + Zpos k)) by (f_equal; lia).
        rewrite Z.pow_add_r by lia. apply Z.mul_lt_mono_pos_r; [lia|exact Dhi]. }
    rewrite binary_round_aux_exact by lia.
    rewrite SF2Q_pos, Hmz, inject_Z_mult, bpow_Z by lia.
    rewrite <- Qmult_assoc, <- bpow_add.
    replace (Zpos k + (Zpos (digits2_pos p) + 0 - 53)) with 0 by lia.
    change (bpow 0) with 1%Q. ring.
Qed.

Lemma promote_point_value (p : point) :
  exact_coordinate (fst p) -> exact_coordinate (snd p) -> same_point (promote_point p) p.
Proof.
  assert (H : forall v, exact_coordinate v ->
                (scalar_value (SFloat (to_float64 v)) == scalar_value v)%Q).
  { intros [n|x|b] Hv; cbn [scalar_value to_float64].
    - now apply of_Z_exact.
    - reflexivity.
    - destruct b; reflexivity. }
  intros H1 H2. split; cbn [promote_point fst snd]; now apply H.
Qed.

(** ** The target shape *)

Lemma py_float_of_int_finite n m e :
  F64.of_Z n = S754_finite false m e -> py_float_of_int n = Ok (F64.of_Z n).
Proof. intros H. unfold py_float_of_int. now rewrite H. Qed.

Lemma SF2Q_pos_nonneg m e : (0 <= SF2Q (S754_finite false m e))%Q.
Proof.
  rewrite SF2Q_pos. apply Qmult_le_0_compat.
  - change 0%Q with (inject_Z 0). rewrite <- Zle_Qle. lia.
  - apply Qlt_le_weak, bpow_pos.
Qed.

(** The scale factor for a longer side [M]: a positive normal double [S] with
    [M * S] within a few units in the last place of 1024. *)
Lemma resize_scale_rel (old_h old_w : Z) :
  let M := Z.max old_h old_w in
  0 < M < 2 ^ 1023 ->
  exists ms es,
    F64.div (F64.of_Z 1024) (F64.of_Z M) = S754_finite false ms es
    /\ resize_scale old_h old_w = Ok (S754_finite false ms es)
    /\ normal64 ms
    /\ -44 - Z.log2 M <= es <= -41 - Z.log2 M
    /\ ((1 - eps) * (inject_Z M * SF2Q (S754_finite false ms es)) <= (1 + eps) * 1024
        /\ (1 - eps) * (1 - eps) * 1024
           <= (1 + eps) * (inject_Z M * SF2Q (S754_finite false ms es)))%Q.
Proof.
  intros M HM.
  destruct (of_Z_rel M HM) as (mM & eM & HofZ & HnM & HeM & HvM).
  destruct (div_1024_rel mM eM HnM) as (ms & es & Hdiv & Hns & Hes & Hvs).
  { assert (0 <= Z.log2 M) by apply Z.log2_nonneg.
    assert (Z.log2 M < 1023) by (apply Z.log2_lt_pow2; lia). lia. }
  exists ms, es.
  split.
  { rewrite HofZ. exact Hdiv. }
  split.
  { unfold resize_scale.
    change (py_int_mul_float 1024 F64.one) with (Ok (S754_finite false 4503599627370496 (-42))).
    cbn [bind]. unfold py_float_div_int. fold M.
    rewrite (py_float_of_int_finite _ _ _ HofZ). cbn [bind]. rewrite HofZ. now rewrite Hdiv. }
  split; [exact Hns|]. split; [lia|].
  pose proof (SF2Q_pos_nonneg ms es) as HS.
  set (S := SF2Q (S754_finite false ms es)) in *.
  set (F := SF2Q (S754_finite false mM eM)) in *.
  destruct HvM as [HvM1 HvM2]. destruct Hvs as [Hvs1 Hvs2].
  assert (L1 : ((1 - eps) * inject_Z M * S <= F * S)%Q) by (apply Qmult_le_compat_r; trivial).
  assert (L2 : (F * S <= (1 + eps) * inject_Z M * S)%Q) by (apply Qmult_le_compat_r; trivial).
  set (MS := (inject_Z M * S)%Q).
  setoid_replace ((1 - eps) * inject_Z M * S)%Q with ((1 - eps) * MS)%Q in L1 by (unfold MS; ring).
  setoid_replace ((1 + eps) * inject_Z M * S)%Q with ((1 + eps) * MS)%Q in L2 by (unfold MS; ring).
  set (FS := (F * S)%Q) in *.
  unfold eps in *. split; lra.
Qed.

(** One side of the target shape: [int(h * scale + 0.5)] for a side [h] that is
    at most the longer side [M]. *)
Lemma side_target (h M : Z) (ms : positive) (es : Z) :
  0 < h <= M -> M < 2 ^ 1023 ->
  normal64 ms ->
  -44 - Z.log2 M <= es <= -41 - Z.log2 M ->
  ((1 - eps) * (inject_Z M * SF2Q (S754_finite false ms es)) <= (1 + eps) * 1024)%Q ->
  ((1 - eps) * (1 - eps) * 1024 <= (1 + eps) * (inject_Z M * SF2Q (S754_finite false ms es)))%Q ->
  exists my ey,
    py_float_of_int h = Ok (F64.of_Z h)
    /\ F64.add (F64.mul (F64.of_Z h) (S754_finite false ms es)) F64.half
       = S754_finite false my ey
    /\ 0 <= Z.shiftl (Zpos my) ey <= 1024
    /\ (h = M -> Z.shiftl (Zpos my) ey = 1024).
Proof.
  intros Hh HM Hns Hes Hup Hlow.
  assert (HL0 : 0 <= Z.log2 h) by apply Z.log2_nonneg.
  assert (HLm : Z.log2 h <= Z.log2 M) by (apply Z.log2_le_mono; lia).
  assert (HL1 : Z.log2 M < 1023) by (apply Z.log2_lt_pow2; lia).
  destruct (of_Z_rel h ltac:(lia)) as (mh & eh & HofZ & Hnh & Heh & Hvh).
  destruct (mul_rel mh eh ms es Hnh Hns ltac:(lia)) as (mx & ex & Hmul & Hnx & Hex & Hvx).
  destruct (add_half_rel mx ex Hnx ltac:(lia)) as (my & ey & Hadd & Hny & Hvy).
  pose proof (shiftl_floor my ey) as Hvt.
  exists my, ey.
  split; [exact (py_float_of_int_finite _ _ _ HofZ)|].
  split; [now rewrite HofZ, Hmul, Hadd|].
  set (t := Z.shiftl (Zpos my) ey) in *.
  pose proof (SF2Q_pos_nonneg ms es) as HS.
  set (S := SF2Q (S754_finite false ms es)) in *.
  set (Fh := SF2Q (S754_finite false mh eh)) in *.
  set (X := SF2Q (S754_finite false mx ex)) in *.
  set (Y := SF2Q (S754_finite false my ey)) in *.
  destruct Hvh as [Hvh1 Hvh2].
  assert (Hhq : (0 < inject_Z h)%Q) by (change 0%Q with (inject_Z 0); rewrite <- Zlt_Qlt; lia).
  assert (HhM : (inject_Z h <= inject_Z M)%Q) by (rewrite <- Zle_Qle; lia).
  assert (L1 : ((1 - eps) * inject_Z h * S <= Fh * S)%Q) by (apply Qmult_le_compat_r; trivial).
  assert (L2 : (Fh * S <= (1 + eps) * inject_Z h * S)%Q) by (apply Qmult_le_compat_r; trivial).
  assert (L3 : (inject_Z h * S <= inject_Z M * S)%Q) by (apply Qmult_le_compat_r; trivial).
  assert (L4 : (0 <= inject_Z h * S)%Q) by (apply Qmult_le_0_compat; lra).
  set (hS := (inject_Z h * S)%Q) in *.
  set (MS := (inject_Z M * S)%Q) in *.
  setoid_replace ((1 - eps) * inject_Z h * S)%Q with ((1 - eps) * hS)%Q in L1 by (unfold hS; ring).
  setoid_replace ((1 + eps) * inject_Z h * S)%Q with ((1 + eps) * hS)%Q in L2 by (unfold hS; ring).
  set (FhS := (Fh * S)%Q) in *.
  assert (Ht1 : (inject_Z t < 1025)%Q) by (unfold eps in *; lra).
  assert (Ht0 : (-1 < inject_Z t)%Q) by (unfold eps in *; lra).
  change 1025%Q with (inject_Z 1025) in Ht1. change (-1)%Q with (inject_Z (-1)) in Ht0.
  rewrite <- Zlt_Qlt in Ht1, Ht0.
  split; [lia|].
  intros ->.
  assert (Ht2 : (1023 < inject_Z t)%Q) by (unfold hS, MS, eps in *; lra).
  change 1023%Q with (inject_Z 1023) in Ht2. rewrite <- Zlt_Qlt in Ht2. lia.
Qed.

Lemma preprocess_shape_spec (H W : Z) :
  0 < H -> 0 < W -> Z.max H W < 2 ^ 1023 ->
  preprocess_shape H W = Ok (spec_target_shape H W)
  /\ 0 <= fst (spec_target_shape H W) <= 1024
  /\ 0 <= snd (spec_target_shape H W) <= 1024
  /\ Z.max (fst (spec_target_shape H W)) (snd (spec_target_shape H W)) = 1024.
Proof.
  intros HH HW HM.
  destruct (resize_scale_rel H W ltac:(lia)) as (ms & es & Hdiv & Hsc & Hns & Hes & Hup & Hlow).
  destruct (side_target H (Z.max H W) ms es ltac:(lia) HM Hns Hes Hup Hlow)
    as (mh & eh & HfH & HyH & HtH & HeqH).
  destruct (side_target W (Z.max H W) ms es ltac:(lia) HM Hns Hes Hup Hlow)
    as (mw & ew & HfW & HyW & HtW & HeqW).
  unfold spec_target_shape, round_half_up, spec_scale. rewrite Hdiv, HyH, HyW.
  cbn [truncate cond_Zopp fst snd].
  split.
  { unfold preprocess_shape. rewrite Hsc. cbn [bind].
    unfold py_int_mul_float. rewrite HfH, HfW. cbn [bind].
    rewrite HyH, HyW. reflexivity. }
  split; [exact HtH|]. split; [exact HtW|].
  destruct (Z.max_spec H W) as [[_ E]|[_ E]].
  - rewrite (HeqW (eq_sym E)). lia.
  - rewrite (HeqH (eq_sym E)). lia.
Qed.

(** [int(h * scale + 0.5)] is [1024 * h / M] rounded to the nearest integer, up
    to the rounding of the three float operations. *)
Lemma side_target_near (h M : Z) (ms : positive) (es : Z) :
  0 < h <= M -> M < 2 ^ 1023 ->
  normal64 ms ->
  -44 - Z.log2 M <= es <= -41 - Z.log2 M ->
  ((1 - eps) * (inject_Z M * SF2Q (S754_finite false ms es)) <= (1 + eps) * 1024)%Q ->
  ((1 - eps) * (1 - eps) * 1024 <= (1 + eps) * (inject_Z M * SF2Q (S754_finite false ms es)))%Q ->
  exists my ey,
    F64.add (F64.mul (F64.of_Z h) (S754_finite false ms es)) F64.half
    = S754_finite false my ey
    /\ 2 ^ 39 * Z.abs (M * Z.shiftl (Zpos my) ey - 1024 * h) <= (2 ^ 38 + 1) * M.
Proof.
  intros Hh HM Hns Hes Hup Hlow.
  assert (HL0 : 0 <= Z.log2 h) by apply Z.log2_nonneg.
  assert (HLm : Z.log2 h <= Z.log2 M) by (apply Z.log2_le_mono; lia).
  assert (HL1 : Z.log2 M < 1023) by (apply Z.log2_lt_pow2; lia).
  destruct (of_Z_rel h ltac:(lia)) as (mh & eh & HofZ & Hnh & Heh & Hvh).
  destruct (mul_rel mh eh ms es Hnh Hns ltac:(lia)) as (mx & ex & Hmul & Hnx & Hex & Hvx).
  destruct (add_half_rel mx ex Hnx ltac:(lia)) as (my & ey & Hadd & Hny & Hvy).
  pose proof (shiftl_floor my ey) as Hvt.
  exists my, ey.
  split; [now rewrite HofZ, Hmul, Hadd|].
  set (t := Z.shiftl (Zpos my) ey) in *.
  pose proof (SF2Q_pos_nonneg ms es) as HS.
  pose proof (SF2Q_pos_nonneg mx ex) as HX0.
  set (S := SF2Q (S754_finite false ms es)) in *.
  set (Fh := SF2Q (S754_finite false mh eh)) in *.
  set (X := SF2Q (S754_finite false mx ex)) in *.
  set (Y := SF2Q (S754_finite false my ey)) in *.
  destruct Hvh as [Hvh1 Hvh2]. destruct Hvx as [Hvx1 Hvx2]. destruct Hvy as [Hvy1 Hvy2].
  destruct Hvt as [Hvt1 Hvt2].
  assert (Hhq : (0 < inject_Z h)%Q) by (change 0%Q with (inject_Z 0); rewrite <- Zlt_Qlt; lia).
  assert (HMq : (0 <= inject_Z M)%Q) by (change 0%Q with (inject_Z 0); rewrite <- Zle_Qle; lia).
  assert (HhM : (inject_Z h <= inject_Z M)%Q) by (rewrite <- Zle_Qle; lia).
  set (qM := inject_Z M) in *. set (qh := inject_Z h) in *. set (qt := inject_Z t) in *.
  (* every bound multiplied by the longer side *)
  assert (A1 : (qt * qM <= Y * qM)%Q) by (apply Qmult_le_compat_r; trivial).
  assert (A2 : (Y * qM <= (qt + 1) * qM)%Q) by (apply Qmult_le_compat_r; [lra|trivial]).
  assert (B1 : ((1 - eps) * (X + (1 # 2)) * qM <= Y * qM)%Q) by (apply Qmult_le_compat_r; trivial).
  assert (B2 : (Y * qM <= (1 + eps) * (X + (1 # 2)) * qM)%Q) by (apply Qmult_le_compat_r; trivial).
  assert (C1 : ((1 - eps) * (Fh * S) * qM <= X * qM)%Q) by (apply Qmult_le_compat_r; trivial).
  assert (C2 : (X * qM <= (1 + eps) * (Fh * S) * qM)%Q) by (apply Qmult_le_compat_r; trivial).
  assert (HSM : (0 <= S * qM)%Q) by (apply Qmult_le_0_compat; trivial).
  assert (D1 : ((1 - eps) * qh * (S * qM) <= Fh * (S * qM))%Q) by (apply Qmult_le_compat_r; trivial).
  assert (D2 : (Fh * (S * qM) <= (1 + eps) * qh * (S * qM))%Q) by (apply Qmult_le_compat_r; trivial).
  assert (E1 : ((1 - eps) * (qM * S) * qh <= (1 + eps) * 1024 * qh)%Q)
    by (apply Qmult_le_compat_r; lra).
  assert (E2 : ((1 - eps) * (1 - eps) * 1024 * qh <= (1 + eps) * (qM * S) * qh)%Q)
    by (apply Qmult_le_compat_r; lra).
  set (tM := (qt * qM)%Q) in *. set (YM := (Y * qM)%Q) in *.
  set (XM := (X * qM)%Q).
  set (FSM := (Fh * S * qM)%Q).
  set (hSM := (qh * S * qM)%Q).
  setoid_replace ((qt + 1) * qM)%Q with (tM + qM)%Q in A2 by (unfold tM; ring).
  setoid_replace ((1 - eps) * (X + (1 # 2)) * qM)%Q
    with ((1 - eps) * (XM + (1 # 2) * qM))%Q in B1 by (unfold XM; ring).
  setoid_replace ((1 + eps) * (X + (1 # 2)) * qM)%Q
    with ((1 + eps) * (XM + (1 # 2) * qM))%Q in B2 by (unfold XM; ring).
  setoid_replace ((1 - eps) * (Fh * S) * qM)%Q with ((1 - eps) * FSM)%Q in C1 by (unfold FSM; ring).
  setoid_replace ((1 + eps) * (Fh * S) * qM)%Q with ((1 + eps) * FSM)%Q in C2 by (unfold FSM; ring).
  fold XM in C1, C2.
  setoid_replace ((1 - eps) * qh * (S * qM))%Q with ((1 - eps) * hSM)%Q in D1 by (unfold hSM; ring).
  setoid_replace ((1 + eps) * qh * (S * qM))%Q with ((1 + eps) * hSM)%Q in D2 by (unfold hSM; ring).
  setoid_replace (Fh * (S * qM))%Q with FSM in D1 by (unfold FSM; ring).
  setoid_replace (Fh * (S * qM))%Q with FSM in D2 by (unfold FSM; ring).
  setoid_replace ((1 - eps) * (qM * S) * qh)%Q with ((1 - eps) * hSM)%Q in E1 by (unfold hSM; ring).
  setoid_replace ((1 + eps) * (qM * S) * qh)%Q with ((1 + eps) * hSM)%Q in E2 by (unfold hSM; ring).
  clearbody YM XM FSM hSM.
  assert (U : (549755813888 * (tM - 1024 * qh) <= 274877906945 * qM)%Q)
    by (unfold eps in *; lra).
  assert (L : (549755813888 * (1024 * qh - tM) <= 274877906945 * qM)%Q)
    by (unfold eps in *; lra).
  unfold tM, qt, qM, qh in U, L.
  assert (UZ : 2 ^ 39 * (M * t - 1024 * h) <= (2 ^ 38 + 1) * M).
  { rewrite Zle_Qle. unfold Z.sub.
    rewrite !inject_Z_mult, inject_Z_plus, inject_Z_opp, !inject_Z_mult.
    change (inject_Z (2 ^ 39)) with 549755813888%Q.
    change (inject_Z (2 ^ 38 + 1)) with 274877906945%Q.
    change (inject_Z 1024) with 1024%Q. lra. }
  assert (LZ : 2 ^ 39 * (1024 * h - M * t) <= (2 ^ 38 + 1) * M).
  { rewrite Zle_Qle. unfold Z.sub.
    rewrite !inject_Z_mult, inject_Z_plus, inject_Z_opp, !inject_Z_mult.
    change (inject_Z (2 ^ 39)) with 549755813888%Q.
    change (inject_Z (2 ^ 38 + 1)) with 274877906945%Q.
    change (inject_Z 1024) with 1024%Q. lra. }
  lia.
Qed.

Lemma preprocess_shape_near (H W : Z) :
  0 < H -> 0 < W -> Z.max H W < 2 ^ 1023 ->
  let M := Z.max H W in
  let rh := fst (spec_target_shape H W) in
  let rw := snd (spec_target_shape H W) in
  2 ^ 39 * Z.abs (M * rh - 1024 * H) <= (2 ^ 38 + 1) * M
  /\ 2 ^ 39 * Z.abs (M * rw - 1024 * W) <= (2 ^ 38 + 1) * M.
Proof.
  intros HH HW HM M rh rw.
  destruct (resize_scale_rel H W ltac:(lia)) as (ms & es & Hdiv & Hsc & Hns & Hes & Hup & Hlow).
  destruct (side_target_near H (Z.max H W) ms es ltac:(lia) HM Hns Hes Hup Hlow)
    as (mh & eh & HyH & HnH).
  destruct (side_target_near W (Z.max H W) ms es ltac:(lia) HM Hns Hes Hup Hlow)
    as (mw & ew & HyW & HnW).
  unfold rh, rw, spec_target_shape, round_half_up, spec_scale. rewrite Hdiv, HyH, HyW.
  cbn [truncate cond_Zopp fst snd]. split; assumption.
Qed.

Lemma near_direction (M h t : Z) :
  0 < h <= M -> 0 <= t ->
  2 ^ 39 * Z.abs (M * t - 1024 * h) <= (2 ^ 38 + 1) * M ->
  (M <= 1024 -> h <= t) /\ (1024 <= M -> t <= h) /\ (M <= 1024 * h -> 1 <= t).
Proof.
  intros Hh Ht Hn.
  change (2 ^ 39) with 549755813888 in Hn. change (2 ^ 38 + 1) with 274877906945 in Hn.
  split; [|split]; intros HM.
  - destruct (Z_le_gt_dec h t) as [|Hgt]; [assumption|exfalso].
    assert (M * t <= M * (h - 1)) by (apply Z.mul_le_mono_nonneg_l; lia).
    assert (M * h <= 1024 * h) by (apply Z.mul_le_mono_nonneg_r; lia).
    lia.
  - destruct (Z_le_gt_dec t h) as [|Hgt]; [assumption|exfalso].
    assert (M * (h + 1) <= M * t) by (apply Z.mul_le_mono_nonneg_l; lia).
    assert (1024 * h <= M * h) by (apply Z.mul_le_mono_nonneg_r; lia).
    lia.
  - destruct (Z_le_gt_dec 1 t) as [|Hgt]; [assumption|exfalso].
    assert (t = 0) as -> by lia. rewrite Z.mul_0_r in Hn. lia.
Qed.

(** Both sides of the target are at least 1 when the longer side of the image
    is at most 1024 times the shorter one. *)
Lemma target_sides_positive (H W : Z) :
  0 < H -> 0 < W -> Z.max H W < 2 ^ 1023 ->
  Z.max H W <= 1024 * Z.min H W ->
  0 < fst (spec_target_shape H W) /\ 0 < snd (spec_target_shape H W).
Proof.
  intros HH HW HM Hr.
  destruct (preprocess_shape_spec H W HH HW HM) as (_ & Hrh & Hrw & _).
  destruct (preprocess_shape_near H W HH HW HM) as (Hnh & Hnw).
  destruct (near_direction (Z.max H W) H (fst (spec_target_shape H W))
              ltac:(lia) ltac:(lia) Hnh) as (_ & _ & Hh).
  destruct (near_direction (Z.max H W) W (snd (spec_target_shape H W))
              ltac:(lia) ltac:(lia) Hnw) as (_ & _ & Hw).
  assert (H <= 1024 * H /\ W <= 1024 * W) by lia.
  split; [specialize (Hh ltac:(lia)) | specialize (Hw ltac:(lia))]; lia.
Qed.

(** ** The resized and the padded image *)

Lemma pad_value_is_mean (c : Z) :
  F32.add (F32.mul F32.zero (pixel_std c)) (pixel_mean c) = pixel_mean c.
Proof.
  unfold pixel_mean, pixel_std, ops_array.
  destruct (Z.to_nat c) as [|[|[|n]]]; try reflexivity.
  destruct n; reflexivity.
Qed.

Lemma broadcast3_ok op (t : tensor) v :
  t_c t = 3 ->
  broadcast3 op t v =
  Ok {| t_dtype := t_dtype t; t_h := t_h t; t_w := t_w t; t_c := 3;
        t_at := fun i j c => SFloat (op (fval (t_at t i j c)) (v c)) |}.
Proof. intros Hc. unfold broadcast3. rewrite Hc. reflexivity. Qed.

Lemma broadcast3_any op (t : tensor) v :
  t_c t = 3 \/ t_c t = 1 ->
  broadcast3 op t v =
  Ok {| t_dtype := t_dtype t; t_h := t_h t; t_w := t_w t; t_c := 3;
        t_at := fun i j c =>
          SFloat (op (fval (t_at t i j (if t_c t =? 1 then 0 else c))) (v c)) |}.
Proof. intros [Hc|Hc]; unfold broadcast3; rewrite Hc; reflexivity. Qed.

Lemma broadcast3_raises op (t : tensor) v :
  t_c t <> 3 -> t_c t <> 1 -> broadcast3 op t v = Raise ValueError.
Proof.
  intros H3 H1. unfold broadcast3.
  destruct (Z.eqb_spec (t_c t) 3); [contradiction|].
  destruct (Z.eqb_spec (t_c t) 1); [contradiction|]. reflexivity.
Qed.

Lemma ops_pad_ok (t : tensor) (pad_h pad_w : Z) :
  0 <= pad_h -> 0 <= pad_w ->
  ops_pad t pad_h pad_w =
  Ok {| t_dtype := t_dtype t; t_h := t_h t + pad_h; t_w := t_w t + pad_w; t_c := t_c t;
        t_at := fun i j c =>
          if (i <? t_h t) && (j <? t_w t) then t_at t i j c else SFloat F32.zero |}.
Proof.
  intros Hh Hw. unfold ops_pad.
  destruct (Z.ltb_spec pad_h 0); [lia|]. destruct (Z.ltb_spec pad_w 0); [lia|]. reflexivity.
Qed.

(** The [if pad:] block on an image of one or three channels that fits the
    canvas. *)
Lemma pad_shorter_side_ok (t : tensor) :
  t_c t = 3 \/ t_c t = 1 -> 0 <= t_h t <= 1024 -> 0 <= t_w t <= 1024 ->
  exists out,
    pad_shorter_side t = Ok out
    /\ t_dtype out = t_dtype t
    /\ shape out = (1024, 1024, 3)
    /\ forall i j c, t_at out i j c = SFloat (canvas_pixel t i j c).
Proof.
  intros Hc Hh Hw. unfold pad_shorter_side.
  rewrite (broadcast3_any F32.sub t pixel_mean Hc). cbn [bind].
  rewrite broadcast3_ok by reflexivity. cbn [bind t_h t_w t_c t_dtype t_at].
  rewrite ops_pad_ok by (cbn [t_h t_w]; lia). cbn [bind].
  rewrite broadcast3_ok by reflexivity. cbn [bind].
  rewrite broadcast3_ok by reflexivity.
  eexists. split; [reflexivity|].
  split; [reflexivity|].
  split; [unfold shape; cbn [t_h t_w t_c]; f_equal; f_equal; lia|].
  intros i j c. cbn [t_at t_h t_w t_c t_dtype fval]. unfold canvas_pixel.
  destruct ((i <? t_h t) && (j <? t_w t)); cbn [fval].
  - reflexivity.
  - now rewrite pad_value_is_mean.
Qed.

(** The block returns only on such an image. *)
Lemma pad_shorter_side_inv (t out : tensor) :
  pad_shorter_side t = Ok out ->
  (t_c t = 3 \/ t_c t = 1) /\ t_h t <= 1024 /\ t_w t <= 1024.
Proof.
  intros H.
  assert (Hc : t_c t = 3 \/ t_c t = 1).
  { destruct (Z.eq_dec (t_c t) 3) as [|H3]; [now left|].
    destruct (Z.eq_dec (t_c t) 1) as [|H1]; [now right|].
    unfold pad_shorter_side in H. rewrite broadcast3_raises in H by assumption.
    discriminate H. }
  split; [exact Hc|].
  unfold pad_shorter_side in H.
  rewrite (broadcast3_any F32.sub t pixel_mean Hc) in H. cbn [bind] in H.
  rewrite broadcast3_ok in H by reflexivity. cbn [bind t_h t_w t_c t_dtype t_at] in H.
  unfold ops_pad in H.
  destruct (Z.ltb_spec (1024 - t_h t) 0); [discriminate H|].
  destruct (Z.ltb_spec (1024 - t_w t) 0); [discriminate H|]. lia.
Qed.

Section Resized.

Variable resample : resampler.

Lemma ops_image_resize_ok (t : tensor) (size : Z * Z) :
  0 < fst size -> 0 < snd size ->
  ops_image_resize resample t size = Ok (resized resample t size).
Proof.
  intros Hh Hw. unfold ops_image_resize.
  destruct (Z.ltb_spec (fst size) 1); [lia|].
  destruct (Z.ltb_spec (snd size) 1); [lia|]. reflexivity.
Qed.

Lemma ops_image_resize_refuses (t : tensor) (size : Z * Z) :
  fst size < 1 \/ snd size < 1 ->
  ops_image_resize resample t size = Raise ValueError.
Proof.
  intros Hs. unfold ops_image_resize.
  destruct (Z.ltb_spec (fst size) 1); [reflexivity|].
  destruct (Z.ltb_spec (snd size) 1); [reflexivity|]. lia.
Qed.

(** [inference_resizing] on an image with positive sides: what it does is
    decided by the target shape. *)
Lemma inference_resizing_unpadded (img : tensor) :
  0 < t_h img -> 0 < t_w img -> Z.max (t_h img) (t_w img) < 2 ^ 1023 ->
  0 < fst (spec_target_shape (t_h img) (t_w img)) ->
  0 < snd (spec_target_shape (t_h img) (t_w img)) ->
  inference_resizing resample img false
  = Ok (resized resample (ops_cast_float32 img)
          (spec_target_shape (t_h img) (t_w img))).
Proof.
  intros HH HW HM Hrh Hrw.
  destruct (preprocess_shape_spec _ _ HH HW HM) as (Hps & _).
  unfold inference_resizing. cbn [ops_cast_float32 t_h t_w]. rewrite Hps. cbn [bind].
  rewrite ops_image_resize_ok by assumption. reflexivity.
Qed.

Lemma inference_resizing_padded (img : tensor) :
  0 < t_h img -> 0 < t_w img -> Z.max (t_h img) (t_w img) < 2 ^ 1023 ->
  0 < fst (spec_target_shape (t_h img) (t_w img)) ->
  0 < snd (spec_target_shape (t_h img) (t_w img)) ->
  t_c img = 3 \/ t_c img = 1 ->
  exists out,
    inference_resizing resample img true = Ok out
    /\ t_dtype out = float32
    /\ shape out = (1024, 1024, 3)
    /\ forall i j c,
         t_at out i j c
         = SFloat (canvas_pixel
                     (resized resample (ops_cast_float32 img)
                        (spec_target_shape (t_h img) (t_w img))) i j c).
Proof.
  intros HH HW HM Hrh Hrw Hc.
  destruct (preprocess_shape_spec _ _ HH HW HM) as (Hps & Hth & Htw & _).
  set (image := resized resample (ops_cast_float32 img)
                  (spec_target_shape (t_h img) (t_w img))).
  destruct (pad_shorter_side_ok image) as (out & Hout & Hdt & Hsh & Hat);
    [exact Hc | exact Hth | exact Htw |].
  exists out.
  split.
  { unfold inference_resizing. cbn [ops_cast_float32 t_h t_w]. rewrite Hps. cbn [bind].
    rewrite ops_image_resize_ok by assumption. cbn [bind]. exact Hout. }
  split; [rewrite Hdt; reflexivity|]. split; [exact Hsh|exact Hat].
Qed.

Lemma inference_resizing_empty_target (img : tensor) (pad : bool) :
  0 < t_h img -> 0 < t_w img -> Z.max (t_h img) (t_w img) < 2 ^ 1023 ->
  fst (spec_target_shape (t_h img) (t_w img)) < 1
  \/ snd (spec_target_shape (t_h img) (t_w img)) < 1 ->
  inference_resizing resample img pad = Raise ValueError.
Proof.
  intros HH HW HM Hs.
  destruct (preprocess_shape_spec _ _ HH HW HM) as (Hps & _).
  unfold inference_resizing. cbn [ops_cast_float32 t_h t_w]. rewrite Hps. cbn [bind].
  rewrite ops_image_resize_refuses by assumption. reflexivity.
Qed.

(** What a call that returns went through. *)
Lemma inference_resizing_inv (img : tensor) (pad : bool) (out : tensor) :
  inference_resizing resample img pad = Ok out ->
  exists rh rw,
    preprocess_shape (t_h img) (t_w img) = Ok (rh, rw)
    /\ 0 < rh /\ 0 < rw
    /\ (if pad
        then pad_shorter_side (resized resample (ops_cast_float32 img) (rh, rw)) = Ok out
        else out = resized resample (ops_cast_float32 img) (rh, rw)).
Proof.
  intros H. unfold inference_resizing in H. cbn [ops_cast_float32 t_h t_w] in H.
  destruct (preprocess_shape (t_h img) (t_w img)) as [[rh rw]|e]; cbn [bind] in H;
    [|discriminate H].
  exists rh, rw. split; [reflexivity|].
  unfold ops_image_resize in H. cbn [fst snd] in H.
  destruct (Z.ltb_spec rh 1); cbn [orb bind] in H; [discriminate H|].
  destruct (Z.ltb_spec rw 1); cbn [orb bind] in H; [discriminate H|].
  split; [lia|]. split; [lia|].
  destruct pad; [exact H | now injection H as <-].
Qed.

End Resized.

Lemma resample_nearest_identity : identity_at_same_size resample_nearest.
Proof.
  intros t i j c Hi Hj. unfold resample_nearest. cbn [fst snd].
  rewrite !Z.div_mul by lia. reflexivity.
Qed.

Lemma preprocess_shape_1024 : preprocess_shape 1024 1024 = Ok (1024, 1024).
Proof. reflexivity. Qed.

Lemma round_trip_close_all :
  forallb (fun c => forallb (round_trip_close c) pixel_values) [0; 1; 2] = true.
Proof. vm_compute. reflexivity. Qed.

Lemma in_pixel_values v : 0 <= v <= 255 -> In v pixel_values.
Proof.
  intros Hv. unfold pixel_values. apply in_map_iff. exists (Z.to_nat v).
  split; [lia|]. apply in_seq. lia.
Qed.

(** ** Comparisons with zero and one *)

Lemma SFeqb_zero_inv x : SFeqb x F64.zero = true -> exists s, x = S754_zero s.
Proof.
  destruct x as [s|s| |s m e]; unfold SFeqb, SFcompare, F64.zero; intros H.
  - now exists s.
  - destruct s; discriminate H.
  - discriminate H.
  - destruct s; discriminate H.
Qed.

Lemma SFeqb_one_inv x : SFeqb x F64.one = true -> x = F64.one.
Proof.
  destruct x as [s|s| |s m e]; unfold SFeqb, SFcompare, F64.one; intros H.
  - discriminate H.
  - destruct s; discriminate H.
  - discriminate H.
  - destruct s; [discriminate H|].
    destruct (Z.compare_spec e (-52)) as [He|He|He]; try discriminate H.
    destruct (Pos.compare_cont Eq m 4503599627370496) eqn:Hm; try discriminate H.
    apply Pos.compare_eq in Hm. subst. reflexivity.
Qed.

Lemma gt_zero_boolean (v : scalar) :
  is_boolean v = true -> scalar_eqb (SBool (gt_zero v)) v = true.
Proof.
  destruct v as [n|x|b]; cbn [is_boolean gt_zero]; intros H.
  - apply orb_true_iff in H. destruct H as [H|H]; apply Z.eqb_eq in H; subst n.
    + reflexivity.
    + vm_compute; reflexivity.
  - apply orb_true_iff in H. destruct H as [H|H].
    + apply SFeqb_zero_inv in H. destruct H as [s ->]. destruct s; reflexivity.
    + apply SFeqb_one_inv in H. subst x. vm_compute; reflexivity.
  - cbn [scalar_eqb]. apply eqb_reflx.
Qed.

(** ** Lists of prompts *)

Lemma firstn_length_app {A} (l1 l2 : list A) : firstn (length l1) (l1 ++ l2) = l1.
Proof.
  rewrite firstn_app, Nat.sub_diag, firstn_all. cbn [firstn]. apply app_nil_r.
Qed.

Lemma skipn_length_app {A} (l1 l2 : list A) : skipn (length l1) (l1 ++ l2) = l2.
Proof.
  rewrite skipn_app, Nat.sub_diag, skipn_all. reflexivity.
Qed.

Lemma promoted_points_same (l : list point) :
  Forall (fun p => exact_coordinate (fst p) /\ exact_coordinate (snd p)) l ->
  Forall2 same_point (map promote_point l) l.
Proof.
  induction 1 as [|p l [H1 H2] _ IH]; cbn [map]; constructor; trivial.
  now apply promote_point_value.
Qed.

(** ** Worked examples *)

Example scale_of_800x600 :
  resize_scale 600 800 = Ok (S754_finite false 5764607523034235 (-52)).
Proof. reflexivity. Qed.

Example preprocess_shape_800x600 : preprocess_shape 600 800 = Ok (768, 1024).
Proof. reflexivity. Qed.

Example preprocess_shape_truck : preprocess_shape 1200 1800 = Ok (683, 1024).
Proof. reflexivity. Qed.

Example preprocess_shape_mask : preprocess_shape 256 256 = Ok (1024, 1024).
Proof. reflexivity. Qed.

Example preprocess_shape_thin : preprocess_shape 1 3000 = Ok (0, 1024).
Proof. reflexivity. Qed.

Example preprocess_shape_empty : preprocess_shape 0 0 = Raise ZeroDivisionError.
Proof. reflexivity. Qed.

(** A product just below one half: the sum with [0.5] rounds to [1.0]. *)
Example preprocess_shape_below_half :
  F64.mul (F64.of_Z 49) (spec_scale 49 100352)
    = S754_finite false 9007199254740991 (-54)
  /\ preprocess_shape 49 100352 = Ok (1, 1024).
Proof. split; reflexivity. Qed.

(** The constants of [pixel_mean] and [pixel_std] as float32, each within half
    a unit in the last place of its decimal. *)
Example pixel_constants :
  map pixel_mean [0; 1; 2]
    = [S754_finite false 16210330 (-17); S754_finite false 15241052 (-17);
       S754_finite false 13569884 (-17)]
  /\ map pixel_std [0; 1; 2]
    = [S754_finite false 15307899 (-18); S754_finite false 14973665 (-18);
       S754_finite false 15040512 (-18)]
  /\ forallb (fun xd => Qle_bool (Qabs (SF2Q (fst xd) - snd xd)) (bpow (-18)))
       (combine (map pixel_mean [0; 1; 2]) [123675 # 1000; 11628 # 100; 10353 # 100]%Q)
     = true
  /\ forallb (fun xd => Qle_bool (Qabs (SF2Q (fst xd) - snd xd)) (bpow (-19)))
       (combine (map pixel_std [0; 1; 2]) [58395 # 1000; 5712 # 100; 57375 # 1000]%Q)
     = true.
Proof. repeat split; vm_compute; reflexivity. Qed.

(** The literals as Python reads them: each is within half a unit in the last
    place of its decimal. *)
Example pixel_literals :
  forallb (fun xd => Qle_bool (Qabs (SF2Q (fst xd) - snd xd)) (bpow (-47)))
    (combine pixel_mean_literals [123675 # 1000; 11628 # 100; 10353 # 100]%Q)
  = true
  /\ forallb (fun xd => Qle_bool (Qabs (SF2Q (fst xd) - snd xd)) (bpow (-48)))
       (combine pixel_std_literals [58395 # 1000; 5712 # 100; 57375 # 1000]%Q)
     = true.
Proof. split; vm_compute; reflexivity. Qed.

(** A 1 x 3000 strip: the resize refuses the target shape (0, 1024), in both
    pad modes. *)
Example strip_is_refused :
  preprocess_shape 1 3000 = Ok (0, 1024)
  /\ inference_resizing resample_nearest strip_1x3000 false = Raise ValueError
  /\ inference_resizing resample_nearest strip_1x3000 true = Raise ValueError.
Proof. repeat split; reflexivity. Qed.

(** ** Shape of the result *)

(** C1 as stated fails: a 1 x 3000 image has the target shape (0, 1024), and
    the resize refuses it with ValueError. *)
Lemma thin_image_is_rejected : ~ every_positive_image_is_resized.
Proof.
  intros Hclaim.
  destruct (Hclaim resample_nearest strip_1x3000)
    as (rh & rw & plain & padded & _ & _ & Hplain & _); try reflexivity.
  vm_compute in Hplain. discriminate Hplain.
Qed.

(** C1, amended. For every image with positive height and width (sides below
    2^1023, so that they convert to a Python float: every array shape does),
    the target shape is computed without error and its larger side is 1024.
    When its smaller side is at least 1, which it is whenever the longer side
    of the image is at most 1024 times the shorter one, [inference_resizing]
    with pad=False returns a tensor of exactly that height and width with the
    channels of the input, and with pad=True on a 3-channel image it returns
    a tensor of shape 1024 x 1024 x 3.  When its smaller side is 0, the call
    raises ValueError in both pad modes. *)
Theorem inference_resizing_shape resample (img : tensor) :
  0 < t_h img -> 0 < t_w img -> Z.max (t_h img) (t_w img) < 2 ^ 1023 ->
  exists rh rw,
    preprocess_shape (t_h img) (t_w img) = Ok (rh, rw)
    /\ Z.max rh rw = 1024
    /\ 0 <= Z.min rh rw
    /\ (Z.max (t_h img) (t_w img) <= 1024 * Z.min (t_h img) (t_w img) -> 0 < Z.min rh rw)
    /\ (0 < Z.min rh rw ->
        exists plain,
          inference_resizing resample img false = Ok plain
          /\ shape plain = (rh, rw, t_c img)
          /\ (t_c img = 3 ->
              exists padded,
                inference_resizing resample img true = Ok padded
                /\ shape padded = (1024, 1024, 3)))
    /\ (Z.min rh rw = 0 ->
        forall pad, inference_resizing resample img pad = Raise ValueError).
Proof.
  intros HH HW HM.
  destruct (preprocess_shape_spec _ _ HH HW HM) as (Hps & Hrh & Hrw & Hmax).
  pose proof (target_sides_positive _ _ HH HW HM) as Hpos.
  pose proof (inference_resizing_unpadded resample img HH HW HM) as Hplain.
  pose proof (inference_resizing_padded resample img HH HW HM) as Hpadded.
  pose proof (fun pad => inference_resizing_empty_target resample img pad HH HW HM) as Hthin.
  destruct (spec_target_shape (t_h img) (t_w img)) as [rh rw] eqn:Esz.
  cbn [fst snd] in *.
  exists rh, rw.
  split; [exact Hps|]. split; [exact Hmax|]. split; [lia|].
  split; [intros Hr; specialize (Hpos Hr); lia|].
  split.
  - intros Hmin. eexists.
    split; [apply Hplain; lia|]. split; [reflexivity|].
    intros Hc.
    destruct Hpadded as (out & Hout & _ & Hsh & _); [lia | lia | now left |].
    exists out. split; trivial.
  - intros Hmin pad. apply Hthin. lia.
Qed.

Lemma inference_resizing_shape_witness :
  exists rh rw,
    preprocess_shape 600 800 = Ok (rh, rw)
    /\ Z.max rh rw = 1024
    /\ 0 <= Z.min rh rw
    /\ (Z.max 600 800 <= 1024 * Z.min 600 800 -> 0 < Z.min rh rw)
    /\ (0 < Z.min rh rw ->
        exists plain,
          inference_resizing resample_nearest photo_600x800 false = Ok plain
          /\ shape plain = (rh, rw, 3)
          /\ (3 = 3 ->
              exists padded,
                inference_resizing resample_nearest photo_600x800 true = Ok padded
                /\ shape padded = (1024, 1024, 3)))
    /\ (Z.min rh rw = 0 ->
        forall pad, inference_resizing resample_nearest photo_600x800 pad = Raise ValueError).
Proof.
  apply (inference_resizing_shape resample_nearest photo_600x800); reflexivity.
Defined.



(** ** Pixel values *)

(** C3. For every image with positive height and width (sides below 2^1023)
    and pad=True: when both sides of the target shape are at least 1 and the
    image has three channels (or one) the call returns, and in every result
    that the call returns (there is none when the resize refuses the target
    shape), every element outside the resized rows and columns equals the
    float32 constant [pixel_mean] of its channel, because
    [0 * pixel_std + pixel_mean] is [pixel_mean] in float32. *)
Theorem padding_is_pixel_mean resample (img : tensor) :
  0 < t_h img -> 0 < t_w img -> Z.max (t_h img) (t_w img) < 2 ^ 1023 ->
  exists rh rw,
    preprocess_shape (t_h img) (t_w img) = Ok (rh, rw)
    /\ (0 < rh -> 0 < rw -> t_c img = 3 \/ t_c img = 1 ->
        exists out, inference_resizing resample img true = Ok out)
    /\ (forall out,
          inference_resizing resample img true = Ok out ->
          shape out = (1024, 1024, 3)
          /\ forall i j c,
               0 <= i < 1024 -> 0 <= j < 1024 -> 0 <= c < 3 ->
               rh <= i \/ rw <= j ->
               t_at out i j c = SFloat (pixel_mean c)
               /\ F32.add (F32.mul F32.zero (pixel_std c)) (pixel_mean c) = pixel_mean c).
Proof.
  intros HH HW HM.
  destruct (preprocess_shape_spec _ _ HH HW HM) as (Hps & _).
  pose proof (inference_resizing_padded resample img HH HW HM) as Hpadded.
  destruct (spec_target_shape (t_h img) (t_w img)) as [rh rw] eqn:Esz.
  cbn [fst snd] in *.
  exists rh, rw. split; [exact Hps|]. split.
  - intros Hrh Hrw Hc. destruct (Hpadded Hrh Hrw Hc) as (out & Hout & _).
    exists out. exact Hout.
  - intros out Hout.
    destruct (inference_resizing_inv resample img true out Hout)
      as (rh' & rw' & Hps' & Hrh & Hrw & Hpad).
    rewrite Hps in Hps'. injection Hps' as <- <-.
    destruct (pad_shorter_side_inv _ _ Hpad) as (Hc & _).
    destruct (Hpadded Hrh Hrw Hc) as (out' & Hout' & _ & Hsh & Hat).
    rewrite Hout in Hout'. injection Hout' as <-.
    split; [exact Hsh|].
    intros i j c Hi Hj Hcc Hout'.
    split; [|apply pad_value_is_mean].
    rewrite Hat. unfold canvas_pixel. cbn [resized t_h t_w fst snd].
    destruct (Z.ltb_spec i rh); destruct (Z.ltb_spec j rw); cbn [andb]; try reflexivity; lia.
Qed.

Lemma padding_is_pixel_mean_witness :
  exists rh rw,
    preprocess_shape 600 800 = Ok (rh, rw)
    /\ (0 < rh -> 0 < rw -> 3 = 3 \/ 3 = 1 ->
        exists out, inference_resizing resample_nearest photo_600x800 true = Ok out)
    /\ (forall out,
          inference_resizing resample_nearest photo_600x800 true = Ok out ->
          shape out = (1024, 1024, 3)
          /\ forall i j c,
               0 <= i < 1024 -> 0 <= j < 1024 -> 0 <= c < 3 ->
               rh <= i \/ rw <= j ->
               t_at out i j c = SFloat (pixel_mean c)
               /\ F32.add (F32.mul F32.zero (pixel_std c)) (pixel_mean c) = pixel_mean c).
Proof.
  apply (padding_is_pixel_mean resample_nearest photo_600x800); reflexivity.
Defined.

(** C6 as stated fails: with a resampler that leaves an image of unchanged size
    alone, the green channel of an all-black 1024 x 1024 image comes back as
    [-2^-17], not [0]. *)
Lemma black_green_channel_changes : ~ canvas_sized_image_unchanged.
Proof.
  intros Hclaim.
  destruct (Hclaim resample_nearest black_canvas resample_nearest_identity)
    as (_ & out & Hout & _ & Hpix); try reflexivity.
  destruct (inference_resizing_padded resample_nearest black_canvas)
    as (out' & Hout' & _ & _ & Hat); try reflexivity; [now left|].
  rewrite Hout in Hout'. injection Hout' as <-.
  specialize (Hpix 0 0 1 ltac:(lia) ltac:(lia) ltac:(lia)).
  rewrite Hat in Hpix. vm_compute in Hpix. discriminate Hpix.
Qed.

(** C6, amended. For a 3-channel image of size 1024 x 1024 the target shape is
    1024 x 1024, nothing is padded (the result is 1024 x 1024 x 3 and every
    element comes from a resized pixel), and each element is the float32 round
    trip [((p - mean) / std) * std + mean] of the resized pixel [p], the
    division being a multiplication by the float32 reciprocal; with a
    resampler that is the identity at unchanged size, [p] is the input pixel
    cast to float32.  The round trip is not exact: for the 8-bit values it
    stays within [2^-16] of [p]; 0 in the green channel comes back as
    [-2^-17], 248 in the green channel as [248 + 2^-16] and 255 in the blue
    channel as [255 - 2^-16]. *)
Theorem canvas_sized_image_round_trip resample (img : tensor) :
  t_h img = 1024 -> t_w img = 1024 -> t_c img = 3 ->
  preprocess_shape (t_h img) (t_w img) = Ok (1024, 1024)
  /\ (exists out,
        inference_resizing resample img true = Ok out
        /\ shape out = (1024, 1024, 3)
        /\ (forall i j c,
              0 <= i < 1024 -> 0 <= j < 1024 -> 0 <= c < 3 ->
              t_at out i j c
              = SFloat (renormalize c (resample (ops_cast_float32 img) (1024, 1024) i j c)))
        /\ (identity_at_same_size resample ->
            forall i j c,
              0 <= i < 1024 -> 0 <= j < 1024 -> 0 <= c < 3 ->
              t_at out i j c = SFloat (renormalize c (cast_float32 (t_at img i j c)))))
  /\ (forall c v, 0 <= c < 3 -> 0 <= v <= 255 -> round_trip_close c v = true)
  /\ renormalize 1 (F32.of_Z 0) = S754_finite true 8388608 (-40)
  /\ renormalize 1 (F32.of_Z 248) = S754_finite false 16252929 (-16)
  /\ renormalize 2 (F32.of_Z 255) = S754_finite false 16711679 (-16).
Proof.
  intros Hh Hw Hc.
  rewrite Hh, Hw.
  split; [exact preprocess_shape_1024|].
  split; [|split; [|repeat split; vm_compute; reflexivity]].
  - destruct (inference_resizing_padded resample img) as (out & Hout & _ & Hsh & Hat);
      try lia; try (rewrite Hh, Hw; reflexivity).
    exists out. split; [exact Hout|]. split; [exact Hsh|].
    rewrite Hh, Hw in Hat.
    change (spec_target_shape 1024 1024) with (1024, 1024) in Hat.
    assert (Hpix : forall i j c,
               0 <= i < 1024 -> 0 <= j < 1024 -> 0 <= c < 3 ->
               t_at out i j c
               = SFloat (renormalize c (resample (ops_cast_float32 img) (1024, 1024) i j c))).
    { intros i j c Hi Hj Hcc. rewrite Hat. unfold canvas_pixel.
      cbn [resized ops_cast_float32 t_h t_w t_c t_at fst snd fval]. rewrite Hc.
      destruct (Z.ltb_spec i 1024); [|lia]. destruct (Z.ltb_spec j 1024); [|lia].
      reflexivity. }
    split; [exact Hpix|].
    intros Hid i j c Hi Hj Hcc. rewrite Hpix by trivial.
    specialize (Hid (ops_cast_float32 img) i j c).
    cbn [ops_cast_float32 t_h t_w t_at fval] in Hid.
    rewrite Hh, Hw in Hid. rewrite Hid by trivial. reflexivity.
  - intros c v Hcc Hv.
    pose proof round_trip_close_all as Hall.
    rewrite forallb_forall in Hall.
    assert (Hin : In c [0; 1; 2]) by (cbn; lia).
    specialize (Hall c Hin). rewrite forallb_forall in Hall.
    apply Hall, in_pixel_values, Hv.
Qed.

Lemma canvas_sized_image_round_trip_witness :
  preprocess_shape 1024 1024 = Ok (1024, 1024)
  /\ (exists out,
        inference_resizing resample_nearest black_canvas true = Ok out
        /\ shape out = (1024, 1024, 3)
        /\ (forall i j c,
              0 <= i < 1024 -> 0 <= j < 1024 -> 0 <= c < 3 ->
              t_at out i j c
              = SFloat (renormalize c
                          (resample_nearest (ops_cast_float32 black_canvas) (1024, 1024) i j c)))
        /\ (identity_at_same_size resample_nearest ->
            forall i j c,
              0 <= i < 1024 -> 0 <= j < 1024 -> 0 <= c < 3 ->
              t_at out i j c
              = SFloat (renormalize c (cast_float32 (t_at black_canvas i j c)))))
  /\ (forall c v, 0 <= c < 3 -> 0 <= v <= 255 -> round_trip_close c v = true)
  /\ renormalize 1 (F32.of_Z 0) = S754_finite true 8388608 (-40)
  /\ renormalize 1 (F32.of_Z 248) = S754_finite false 16252929 (-16)
  /\ renormalize 2 (F32.of_Z 255) = S754_finite false 16711679 (-16).
Proof.
  apply (canvas_sized_image_round_trip resample_nearest black_canvas); reflexivity.
Defined.

(** C10. For every image with positive height and width (sides below 2^1023),
    whatever the dtype and the elements of the input, and in both pad modes:
    when both sides of the target shape are at least 1 (and, when pad=True,
    the image has three channels or one) [inference_resizing] returns, and
    every tensor it returns has dtype float32 and floats as elements; an
    integer input is never returned as integers. *)
Theorem inference_resizing_returns_float32 resample (img : tensor) (pad : bool) :
  0 < t_h img -> 0 < t_w img -> Z.max (t_h img) (t_w img) < 2 ^ 1023 ->
  exists rh rw,
    preprocess_shape (t_h img) (t_w img) = Ok (rh, rw)
    /\ (0 < rh -> 0 < rw -> (pad = true -> t_c img = 3 \/ t_c img = 1) ->
        exists out, inference_resizing resample img pad = Ok out)
    /\ (forall out,
          inference_resizing resample img pad = Ok out ->
          t_dtype out = float32
          /\ forall i j c, exists x, t_at out i j c = SFloat x).
Proof.
  intros HH HW HM.
  destruct (preprocess_shape_spec _ _ HH HW HM) as (Hps & _).
  pose proof (inference_resizing_unpadded resample img HH HW HM) as Hplain.
  pose proof (inference_resizing_padded resample img HH HW HM) as Hpadded.
  destruct (spec_target_shape (t_h img) (t_w img)) as [rh rw] eqn:Esz.
  cbn [fst snd] in *.
  exists rh, rw. split; [exact Hps|]. split.
  - intros Hrh Hrw Hc. destruct pad.
    + destruct (Hpadded Hrh Hrw (Hc eq_refl)) as (out & Hout & _). exists out. exact Hout.
    + eexists. apply Hplain; assumption.
  - intros out Hout.
    destruct (inference_resizing_inv resample img pad out Hout)
      as (rh' & rw' & Hps' & Hrh & Hrw & Hpad).
    rewrite Hps in Hps'. injection Hps' as <- <-.
    destruct pad.
    + destruct (pad_shorter_side_inv _ _ Hpad) as (Hc & _).
      destruct (Hpadded Hrh Hrw Hc) as (out' & Hout' & Hdt & _ & Hat).
      rewrite Hout in Hout'. injection Hout' as <-.
      split; [exact Hdt|]. intros i j c. rewrite Hat. eexists; reflexivity.
    + subst out. split; [reflexivity|]. intros i j c. eexists; reflexivity.
Qed.

Lemma inference_resizing_returns_float32_witness :
  exists rh rw,
    preprocess_shape 600 800 = Ok (rh, rw)
    /\ (0 < rh -> 0 < rw -> (true = true -> 3 = 3 \/ 3 = 1) ->
        exists out, inference_resizing resample_nearest photo_600x800 true = Ok out)
    /\ (forall out,
          inference_resizing resample_nearest photo_600x800 true = Ok out ->
          t_dtype out = float32
          /\ forall i j c, exists x, t_at out i j c = SFloat x).
Proof.
  apply (inference_resizing_returns_float32 resample_nearest photo_600x800 true);
    reflexivity.
Defined.

(** ** Requests *)

(** C4 as stated fails: for a 600 x 800 image the scale is 1.28, and the box
    with corners (240, 340) and (400, 500) reaches the request unchanged, not
    multiplied by 1.28. *)
Lemma box_prompt_sent_unscaled : ~ prompts_rescaled_into_canvas.
Proof.
  intros Hclaim.
  destruct (inference_resizing_padded resample_nearest photo_600x800)
    as (canvas & Hcanvas & _); try reflexivity; [now left|].
  destruct (Hclaim resample_nearest photo_600x800 canvas
              (S754_finite false 5764607523034235 (-52)) truck_box)
    as (sent & Hsent & Hscaled); try reflexivity; trivial.
  cbn [box_request boxes] in Hsent.
  injection Hsent as <-.
  vm_compute in Hscaled. discriminate.
Qed.

(** C4, amended. The box corners and the point coordinates are placed in the
    request as the caller gives them, with no rescaling: a box is sent
    unchanged, points sent with a box are sent unchanged, and points sent
    without a box are converted to float64, which keeps the value of every
    float and of every pixel index, and are followed by the placeholder.  From
    the image as loaded, the same box is sent together with the resized image. *)
Theorem prompts_sent_as_given (image : tensor) (input_box : box)
    (input_point : list point) (input_label : list Z) :
  boxes (box_request image input_box) = Some [[input_box]]
  /\ boxes (box_point_request image input_box input_point input_label) = Some [[input_box]]
  /\ points (box_point_request image input_box input_point input_label) = Some [input_point]
  /\ (exists sent,
        points (point_request image input_point input_label)
        = Some [sent ++ [np_zeros_point]]
        /\ length sent = length input_point
        /\ (Forall (fun p => exact_coordinate (fst p) /\ exact_coordinate (snd p)) input_point ->
            Forall2 same_point sent input_point))
  /\ forall resample predict source,
       segment_box resample predict source input_box
       = (canvas <- inference_resizing resample source true ;;
          predict {| images := [canvas]; points := None; labels := None;
                     boxes := Some [[input_box]]; masks := None |}).
Proof.
  split; [reflexivity|]. split; [reflexivity|]. split; [reflexivity|].
  split; [|reflexivity].
  exists (map promote_point input_point).
  split; [reflexivity|]. split; [apply length_map|].
  apply promoted_points_same.
Qed.

(** C5 as stated fails: two points with one label are handed to a model that
    accepts every request, and the call returns normally. *)
Lemma mismatched_prompts_reach_the_model : ~ malformed_prompts_rejected.
Proof.
  intros Hclaim.
  destruct (Hclaim accept_all black_canvas [window_point; window_point] [1%Z])
    as (e & He).
  - cbn. lia.
  - discriminate He.
Qed.

(** C5, amended. Request assembly does not validate prompt shapes: whatever
    the lengths of the point and label lists, [predict] is called with the
    assembled dictionary (one more point and one more label than given) and
    its outcome is returned; a box prompt is sent as exactly one box, and the
    boxes of a detector are spread over the batch, one box per entry. *)
Theorem request_assembly_does_not_validate (predict : predictor) (image : tensor)
    (input_point : list point) (input_label : list Z) (input_box : box)
    (detected : list box) :
  predict_points predict image input_point input_label
  = predict (point_request image input_point input_label)
  /\ (exists pts lbls,
        points (point_request image input_point input_label) = Some [pts]
        /\ labels (point_request image input_point input_label) = Some [lbls]
        /\ length pts = S (length input_point)
        /\ length lbls = S (length input_label))
  /\ predict_box predict image input_box = predict (box_request image input_box)
  /\ (exists bs,
        boxes (detected_boxes_request image detected) = Some bs
        /\ length bs = length detected
        /\ length (images (detected_boxes_request image detected)) = length detected
        /\ Forall (fun entry => length entry = 1%nat) bs).
Proof.
  split; [reflexivity|].
  split.
  { eexists. eexists. split; [reflexivity|]. split; [reflexivity|].
    rewrite !length_app, length_map. cbn. split; lia. }
  split; [reflexivity|].
  eexists. split; [reflexivity|].
  split; [apply length_map|]. split; [apply repeat_length|].
  apply Forall_forall. intros entry Hin. apply in_map_iff in Hin.
  destruct Hin as (b & <- & _). reflexivity.
Qed.

(** C8 as stated fails: the request built for [predict] from one point and no
    box holds two points. *)
Lemma predict_path_is_padded : ~ predict_path_is_never_padded.
Proof.
  intros Hclaim.
  destruct (Hclaim black_canvas [window_point] [1%Z]) as (Hp & _).
  discriminate Hp.
Qed.

(** C8, amended. On the [predict] path, when no box prompt is given, the
    points of the request are the caller's points followed by exactly one
    placeholder point (0, 0), the labels are the caller's labels followed by
    exactly one label -1, and the keys of the absent prompts (boxes, masks) are
    left out; when a box prompt is given nothing is appended and absent keys
    are left out. *)
Theorem placeholder_point_on_predict_path (predict : predictor) (image : tensor)
    (input_point : list point) (input_label : list Z) (input_box : box) :
  (exists pts lbls,
     predict_points predict image input_point input_label
     = predict {| images := [image]; points := Some [pts]; labels := Some [lbls];
                  boxes := None; masks := None |}
     /\ firstn (length input_point) pts = map promote_point input_point
     /\ skipn (length input_point) pts = [(SFloat F64.zero, SFloat F64.zero)]
     /\ firstn (length input_label) lbls = input_label
     /\ skipn (length input_label) lbls = [-1])
  /\ predict_box predict image input_box
     = predict {| images := [image]; points := None; labels := None;
                  boxes := Some [[input_box]]; masks := None |}
  /\ predict_box_points predict image input_box input_point input_label
     = predict {| images := [image]; points := Some [input_point];
                  labels := Some [input_label];
                  boxes := Some [[input_box]]; masks := None |}.
Proof.
  split; [|split; reflexivity].
  exists (map promote_point input_point ++ [np_zeros_point]), (input_label ++ [-1]).
  split; [reflexivity|].
  rewrite <- (length_map promote_point input_point).
  rewrite firstn_length_app, skipn_length_app, firstn_length_app, skipn_length_app.
  repeat split.
Qed.

(** ** Thresholding *)

(** C7. Thresholding at 0.0 is idempotent: on a mask whose elements are
    boolean ([False]/[True], [0]/[1] or [0.0]/[1.0]) the mask [mask > 0.0] has
    the same shape and, element by element, the same value; in particular
    thresholding a thresholded mask, as a boolean mask or as [1 * (mask > 0.0)],
    returns the thresholded mask, and so does thresholding the mask that
    cell 17 computes. *)
Theorem threshold_idempotent (mask : tensor) :
  (forall i j c, is_boolean (t_at mask i j c) = true) ->
  shape (threshold mask) = shape mask
  /\ (forall i j c, scalar_eqb (t_at (threshold mask) i j c) (t_at mask i j c) = true)
  /\ (forall (logits : tensor) i j c,
        t_at (threshold (threshold logits)) i j c = t_at (threshold logits) i j c
        /\ t_at (threshold (threshold_int logits)) i j c = t_at (threshold logits) i j c)
  /\ (forall resample (logits m : tensor),
        postprocess_mask resample logits = Ok m ->
        shape (threshold m) = shape m
        /\ forall i j c, t_at (threshold m) i j c = t_at m i j c).
Proof.
  intros Hbool. split; [reflexivity|]. split; [|split].
  - intros i j c. cbn [threshold t_at]. apply gt_zero_boolean, Hbool.
  - intros logits i j c. cbn [threshold threshold_int t_at gt_zero]. split; [reflexivity|].
    destruct (gt_zero (t_at logits i j c)); reflexivity.
  - intros resample logits m Hm. unfold postprocess_mask in Hm.
    destruct (inference_resizing resample logits false) as [r|e]; cbn [bind] in Hm;
      [|discriminate Hm].
    injection Hm as <-. split; reflexivity.
Qed.

Lemma threshold_idempotent_witness :
  shape (threshold (threshold mask_logits)) = shape (threshold mask_logits)
  /\ (forall i j c,
        scalar_eqb (t_at (threshold (threshold mask_logits)) i j c)
                   (t_at (threshold mask_logits) i j c) = true)
  /\ (forall (logits : tensor) i j c,
        t_at (threshold (threshold logits)) i j c = t_at (threshold logits) i j c
        /\ t_at (threshold (threshold_int logits)) i j c = t_at (threshold logits) i j c)
  /\ (forall resample (logits m : tensor),
        postprocess_mask resample logits = Ok m ->
        shape (threshold m) = shape m
        /\ forall i j c, t_at (threshold m) i j c = t_at m i j c).
Proof.
  apply (threshold_idempotent (threshold mask_logits)). intros i j c. reflexivity.
Defined.

(** * Further properties of the notebook *)

(** ** How close the target shape is to the exact ratio *)

(** X1. For positive sides below 2^1023, each side of the target shape is the
    original side times [1024 / max(H, W)] rounded to the nearest integer, up
    to [2^-39] of a pixel; so the aspect ratio is kept up to half a pixel of
    the longer side. *)
Theorem target_shape_keeps_aspect_ratio (H W : Z) :
  0 < H -> 0 < W -> Z.max H W < 2 ^ 1023 ->
  exists rh rw,
    preprocess_shape H W = Ok (rh, rw)
    /\ 2 ^ 39 * Z.abs (Z.max H W * rh - 1024 * H) <= (2 ^ 38 + 1) * Z.max H W
    /\ 2 ^ 39 * Z.abs (Z.max H W * rw - 1024 * W) <= (2 ^ 38 + 1) * Z.max H W
    /\ 2 ^ 39 * Z.abs (rh * W - rw * H) <= (2 ^ 38 + 1) * Z.max H W.
Proof.
  intros HH HW HM.
  destruct (preprocess_shape_spec H W HH HW HM) as (Hps & Hrh & Hrw & Hmax).
  destruct (preprocess_shape_near H W HH HW HM) as (Hnh & Hnw).
  destruct (spec_target_shape H W) as [rh rw]. cbn [fst snd] in *.
  exists rh, rw. split; [exact Hps|]. split; [exact Hnh|]. split; [exact Hnw|].
  clear Hps HM.
  destruct (Z.max_spec H W) as [[Hlt E]|[Hle E]]; rewrite E in *; clear E.
  - (* the width is the longer side, so [rw] is 1024 *)
    destruct (near_direction W W rw ltac:(lia) ltac:(lia) Hnw) as (_ & _ & H1).
    assert (rw = 1024) as ->.
    { destruct (Z.eq_dec rw 1024) as [|Hne]; [assumption|exfalso].
      assert (W * rw <= W * 1023) by (apply Z.mul_le_mono_nonneg_l; lia).
      change (2 ^ 39) with 549755813888 in Hnw. change (2 ^ 38 + 1) with 274877906945 in Hnw.
      lia. }
    replace (rh * W - 1024 * H) with (W * rh - 1024 * H) by ring. exact Hnh.
  - assert (rh = 1024) as ->.
    { destruct (Z.eq_dec rh 1024) as [|Hne]; [assumption|exfalso].
      assert (H * rh <= H * 1023) by (apply Z.mul_le_mono_nonneg_l; lia).
      change (2 ^ 39) with 549755813888 in Hnh. change (2 ^ 38 + 1) with 274877906945 in Hnh.
      lia. }
    replace (1024 * W - rw * H) with (- (H * rw - 1024 * W)) by ring.
    rewrite Z.abs_opp. exact Hnw.
Qed.

Lemma target_shape_keeps_aspect_ratio_witness :
  exists rh rw,
    preprocess_shape 1200 1800 = Ok (rh, rw)
    /\ 2 ^ 39 * Z.abs (Z.max 1200 1800 * rh - 1024 * 1200) <= (2 ^ 38 + 1) * Z.max 1200 1800
    /\ 2 ^ 39 * Z.abs (Z.max 1200 1800 * rw - 1024 * 1800) <= (2 ^ 38 + 1) * Z.max 1200 1800
    /\ 2 ^ 39 * Z.abs (rh * 1800 - rw * 1200) <= (2 ^ 38 + 1) * Z.max 1200 1800.
Proof. apply (target_shape_keeps_aspect_ratio 1200 1800); [lia | lia | vm_compute; reflexivity]. Defined.

(** X2. For positive sides below 2^1023: an image whose longer side is at most
    1024 has no side made smaller, an image whose longer side is at least 1024
    has no side made larger, and a side that is at least 1/1024 of the longer
    one keeps at least one pixel. *)
Theorem target_shape_direction (H W : Z) :
  0 < H -> 0 < W -> Z.max H W < 2 ^ 1023 ->
  exists rh rw,
    preprocess_shape H W = Ok (rh, rw)
    /\ (Z.max H W <= 1024 -> H <= rh /\ W <= rw)
    /\ (1024 <= Z.max H W -> rh <= H /\ rw <= W)
    /\ (Z.max H W <= 1024 * H -> 1 <= rh)
    /\ (Z.max H W <= 1024 * W -> 1 <= rw).
Proof.
  intros HH HW HM.
  destruct (preprocess_shape_spec H W HH HW HM) as (Hps & Hrh & Hrw & Hmax).
  destruct (preprocess_shape_near H W HH HW HM) as (Hnh & Hnw).
  destruct (spec_target_shape H W) as [rh rw]. cbn [fst snd] in *.
  exists rh, rw. split; [exact Hps|].
  destruct (near_direction (Z.max H W) H rh ltac:(lia) ltac:(lia) Hnh) as (Hh1 & Hh2 & Hh3).
  destruct (near_direction (Z.max H W) W rw ltac:(lia) ltac:(lia) Hnw) as (Hw1 & Hw2 & Hw3).
  repeat split; auto.
Qed.

Lemma target_shape_direction_witness :
  exists rh rw,
    preprocess_shape 600 800 = Ok (rh, rw)
    /\ (Z.max 600 800 <= 1024 -> 600 <= rh /\ 800 <= rw)
    /\ (1024 <= Z.max 600 800 -> rh <= 600 /\ rw <= 800)
    /\ (Z.max 600 800 <= 1024 * 600 -> 1 <= rh)
    /\ (Z.max 600 800 <= 1024 * 800 -> 1 <= rw).
Proof. apply (target_shape_direction 600 800); [lia | lia | vm_compute; reflexivity]. Defined.

(** ** Both pad modes on the same image *)

Lemma target_shape_of_result (H W rh rw : Z) :
  0 < H -> 0 < W -> Z.max H W < 2 ^ 1023 ->
  preprocess_shape H W = Ok (rh, rw) ->
  spec_target_shape H W = (rh, rw) /\ 0 <= rh <= 1024 /\ 0 <= rw <= 1024.
Proof.
  intros HH HW HM Hps.
  destruct (preprocess_shape_spec H W HH HW HM) as (Hps' & Hrh & Hrw & _).
  assert (E : spec_target_shape H W = (rh, rw)) by congruence.
  rewrite E in Hrh, Hrw. cbn [fst snd] in Hrh, Hrw. now split.
Qed.

(** X3. For a 3-channel image with positive sides below 2^1023 on which
    [inference_resizing] with pad=False returns, the call with pad=True
    returns too and holds that result in its top-left corner: every element
    there is the element of the unpadded result after the float32 round trip
    (- mean) / std * std + mean, the division being a multiplication by the
    float32 reciprocal. *)
Theorem padded_holds_resized_top_left resample (img plain : tensor) :
  0 < t_h img -> 0 < t_w img -> Z.max (t_h img) (t_w img) < 2 ^ 1023 ->
  t_c img = 3 ->
  inference_resizing resample img false = Ok plain ->
  exists padded,
    inference_resizing resample img true = Ok padded
    /\ t_h plain <= t_h padded /\ t_w plain <= t_w padded
    /\ forall i j c,
         i < t_h plain -> j < t_w plain ->
         t_at padded i j c = SFloat (renormalize c (fval (t_at plain i j c))).
Proof.
  intros HH HW HM Hc Hplain.
  destruct (inference_resizing_inv resample img false plain Hplain)
    as (rh & rw & Hps & Hrh & Hrw & ->).
  destruct (target_shape_of_result _ _ _ _ HH HW HM Hps) as (Esz & Hrh' & Hrw').
  destruct (inference_resizing_padded resample img HH HW HM)
    as (padded & Hpad & _ & Hsh & Hat);
    [rewrite Esz; exact Hrh | rewrite Esz; exact Hrw | now left |].
  exists padded. split; [exact Hpad|].
  unfold shape in Hsh. injection Hsh as Hh Hw _. rewrite Hh, Hw.
  cbn [resized t_h t_w fst snd].
  split; [lia|]. split; [lia|].
  intros i j c Hi Hj. rewrite Hat, Esz. unfold canvas_pixel.
  cbn [resized ops_cast_float32 t_h t_w t_c t_at fst snd fval]. rewrite Hc.
  destruct (Z.ltb_spec i rh); [|lia]. destruct (Z.ltb_spec j rw); [|lia].
  reflexivity.
Qed.

Lemma padded_holds_resized_top_left_witness :
  exists padded,
    inference_resizing resample_nearest photo_600x800 true = Ok padded
    /\ t_h (resized resample_nearest (ops_cast_float32 photo_600x800) (768, 1024))
       <= t_h padded
    /\ t_w (resized resample_nearest (ops_cast_float32 photo_600x800) (768, 1024))
       <= t_w padded
    /\ forall i j c,
         i < t_h (resized resample_nearest (ops_cast_float32 photo_600x800) (768, 1024)) ->
         j < t_w (resized resample_nearest (ops_cast_float32 photo_600x800) (768, 1024)) ->
         t_at padded i j c
         = SFloat (renormalize c
                     (fval (t_at (resized resample_nearest (ops_cast_float32 photo_600x800)
                                    (768, 1024)) i j c))).
Proof.
  apply (padded_holds_resized_top_left resample_nearest photo_600x800
           (resized resample_nearest (ops_cast_float32 photo_600x800) (768, 1024)));
    [reflexivity | reflexivity | vm_compute; reflexivity | reflexivity | reflexivity].
Defined.

(** The round trip of the logit [-1.0] on each channel: [-1 + 2^-17],
    [-1 - 2^-17] and [-1 + 2^-17], that is -0.9999924, -1.0000076 and
    -0.9999924. *)
Example renormalize_minus_one :
  map (fun c => renormalize c (S754_finite true 8388608 (-23))) [0; 1; 2]
  = [ S754_finite true 16777088 (-24);
      S754_finite true 8388672 (-23);
      S754_finite true 16777088 (-24) ].
Proof. vm_compute. reflexivity. Qed.

(** X4. A one-channel image (positive sides below 2^1023, both sides of the
    target shape at least 1) with pad=True comes back with three channels:
    the arithmetic with [pixel_mean] broadcasts its only channel, so channel
    [c] of the result is the round trip of channel 0 with the constants of
    channel [c], and [pixel_mean c] in the padding. *)
Theorem grey_image_broadcast_to_three_channels resample (img : tensor) (rh rw : Z) :
  0 < t_h img -> 0 < t_w img -> Z.max (t_h img) (t_w img) < 2 ^ 1023 ->
  t_c img = 1 ->
  preprocess_shape (t_h img) (t_w img) = Ok (rh, rw) -> 0 < rh -> 0 < rw ->
  exists out,
    inference_resizing resample img true = Ok out
    /\ t_dtype out = float32
    /\ shape out = (1024, 1024, 3)
    /\ forall i j c,
         t_at out i j c
         = SFloat (if (i <? rh) && (j <? rw)
                   then renormalize c (resample (ops_cast_float32 img) (rh, rw) i j 0)
                   else pixel_mean c).
Proof.
  intros HH HW HM Hc Hps Hrh Hrw.
  destruct (target_shape_of_result _ _ _ _ HH HW HM Hps) as (Esz & _).
  destruct (inference_resizing_padded resample img HH HW HM)
    as (out & Hout & Hdt & Hsh & Hat);
    [rewrite Esz; exact Hrh | rewrite Esz; exact Hrw | now right |].
  exists out. split; [exact Hout|]. split; [exact Hdt|]. split; [exact Hsh|].
  intros i j c. rewrite Hat, Esz. unfold canvas_pixel.
  cbn [resized ops_cast_float32 t_h t_w t_c t_at fst snd fval]. rewrite Hc.
  reflexivity.
Qed.

Lemma grey_image_broadcast_to_three_channels_witness :
  exists out,
    inference_resizing resample_nearest mask_logits true = Ok out
    /\ t_dtype out = float32
    /\ shape out = (1024, 1024, 3)
    /\ forall i j c,
         t_at out i j c
         = SFloat (if (i <? 1024) && (j <? 1024)
                   then renormalize c
                          (resample_nearest (ops_cast_float32 mask_logits) (1024, 1024) i j 0)
                   else pixel_mean c).
Proof.
  apply (grey_image_broadcast_to_three_channels resample_nearest mask_logits 1024 1024);
    [reflexivity | reflexivity | vm_compute; reflexivity | reflexivity | reflexivity
    | reflexivity | reflexivity].
Defined.

(** X5. With a channel count other than 1 and 3 (positive sides below 2^1023,
    both sides of the target shape at least 1) the two pad modes differ:
    pad=False returns the resized image with its channels, pad=True raises,
    because the image cannot be broadcast against the three-element
    [pixel_mean]. *)
Theorem pad_needs_one_or_three_channels resample (img : tensor) (rh rw : Z) :
  0 < t_h img -> 0 < t_w img -> Z.max (t_h img) (t_w img) < 2 ^ 1023 ->
  t_c img <> 3 -> t_c img <> 1 ->
  preprocess_shape (t_h img) (t_w img) = Ok (rh, rw) -> 0 < rh -> 0 < rw ->
  (exists plain,
     inference_resizing resample img false = Ok plain /\ shape plain = (rh, rw, t_c img))
  /\ (exists e, inference_resizing resample img true = Raise e).
Proof.
  intros HH HW HM H3 H1 Hps Hrh Hrw.
  destruct (target_shape_of_result _ _ _ _ HH HW HM Hps) as (Esz & _).
  split.
  - eexists. split.
    + apply inference_resizing_unpadded; trivial; rewrite Esz; assumption.
    + rewrite Esz. reflexivity.
  - exists ValueError.
    unfold inference_resizing. cbn [ops_cast_float32 t_h t_w]. rewrite Hps. cbn [bind].
    rewrite ops_image_resize_ok by assumption. cbn [bind].
    unfold pad_shorter_side. rewrite broadcast3_raises by assumption. reflexivity.
Qed.

Lemma pad_needs_one_or_three_channels_witness :
  (exists plain,
     inference_resizing resample_nearest (constant_image uint8 600 800 4 (SInt 0)) false = Ok plain
     /\ shape plain = (768, 1024, t_c (constant_image uint8 600 800 4 (SInt 0))))
  /\ (exists e,
        inference_resizing resample_nearest (constant_image uint8 600 800 4 (SInt 0)) true
        = Raise e).
Proof.
  apply (pad_needs_one_or_three_channels resample_nearest
           (constant_image uint8 600 800 4 (SInt 0)) 768 1024);
    [reflexivity | reflexivity | vm_compute; reflexivity | discriminate | discriminate
    | reflexivity | reflexivity | reflexivity].
Defined.

(** X6. An image without rows and without columns makes [inference_resizing]
    raise ZeroDivisionError in both pad modes, before anything is resized:
    [max(old_h, old_w)] is the divisor of the scale. *)
Theorem empty_image_raises_zero_division resample (img : tensor) (pad : bool) :
  t_h img = 0 -> t_w img = 0 ->
  inference_resizing resample img pad = Raise ZeroDivisionError.
Proof.
  intros Hh Hw. unfold inference_resizing. cbn [ops_cast_float32 t_h t_w].
  rewrite Hh, Hw. reflexivity.
Qed.

Lemma empty_image_raises_zero_division_witness :
  inference_resizing resample_nearest (constant_image uint8 0 0 3 (SInt 0)) true
  = Raise ZeroDivisionError.
Proof.
  apply (empty_image_raises_zero_division resample_nearest (constant_image uint8 0 0 3 (SInt 0)) true);
    reflexivity.
Defined.

(** ** The mask of cell 17 *)

Lemma gt_zero_float (x : spec_float) : gt_zero (SFloat x) = is_positive x.
Proof. destruct x as [[]|[]| |[] m e]; reflexivity. Qed.

Lemma square_target_shape (H : Z) :
  0 < H < 2 ^ 1023 -> spec_target_shape H H = (1024, 1024).
Proof.
  intros HH.
  destruct (preprocess_shape_spec H H ltac:(lia) ltac:(lia) ltac:(lia)) as (_ & _ & _ & Hmax).
  unfold spec_target_shape in *. cbn [fst snd] in Hmax.
  rewrite Z.max_id in Hmax. now rewrite Hmax.
Qed.

Lemma postprocess_mask_square resample (logits : tensor) :
  0 < t_h logits < 2 ^ 1023 -> t_w logits = t_h logits ->
  postprocess_mask resample logits
  = Ok (threshold (resized resample (ops_cast_float32 logits) (1024, 1024))).
Proof.
  intros HH HW. unfold postprocess_mask.
  rewrite inference_resizing_unpadded;
    rewrite ?HW, ?Z.max_id, ?square_target_shape by exact HH; try reflexivity; lia.
Qed.

(** X7. For a square map of logits (side positive and below 2^1023), cell 17
    gets a boolean mask of 1024 x 1024 elements per channel, and an element is
    True exactly when the resized logit is strictly positive: a positive
    number or +inf; zeros, negative numbers and NaN give False. *)
Theorem mask_is_positive_logits resample (logits : tensor) :
  0 < t_h logits < 2 ^ 1023 -> t_w logits = t_h logits ->
  exists mask,
    postprocess_mask resample logits = Ok mask
    /\ t_dtype mask = bool_
    /\ shape mask = (1024, 1024, t_c logits)
    /\ forall i j c,
         t_at mask i j c
         = SBool (is_positive (resample (ops_cast_float32 logits) (1024, 1024) i j c)).
Proof.
  intros HH HW. rewrite postprocess_mask_square by assumption.
  eexists. split; [reflexivity|]. split; [reflexivity|]. split; [reflexivity|].
  intros i j c. cbn [threshold t_at resized]. now rewrite gt_zero_float.
Qed.

Lemma mask_is_positive_logits_witness :
  exists mask,
    postprocess_mask resample_nearest mask_logits = Ok mask
    /\ t_dtype mask = bool_
    /\ shape mask = (1024, 1024, t_c mask_logits)
    /\ forall i j c,
         t_at mask i j c
         = SBool (is_positive (resample_nearest (ops_cast_float32 mask_logits) (1024, 1024) i j c)).
Proof.
  apply (mask_is_positive_logits resample_nearest mask_logits);
    [split; [reflexivity | vm_compute; reflexivity] | reflexivity].
Defined.

(** ** The overlay of [show_mask] *)







(** The default colour as doubles: 30/255, 144/255, 1.0 and 0.6. *)
Example default_color_values :
  default_color
  = [ S754_finite false 8477364004462110 (-56);
      S754_finite false 5086418402677266 (-53);
      S754_finite false 4503599627370496 (-52);
      S754_finite false 5404319552844595 (-53) ].
Proof. vm_compute. reflexivity. Qed.



(** ** The markers of [show_points] *)

Lemma in_combine_nth_error {A B} (l1 : list A) (l2 : list B) (a : A) (b : B) :
  In (a, b) (combine l1 l2)
  <-> exists i, nth_error l1 i = Some a /\ nth_error l2 i = Some b.
Proof.
  revert l2. induction l1 as [|x l1 IH]; intros l2.
  - cbn [combine]. split; [intros []|]. intros (i & H & _). destruct i; discriminate.
  - destruct l2 as [|y l2]; cbn [combine].
    + split; [intros []|]. intros (i & _ & H). destruct i; discriminate.
    + split.
      * intros [E|Hin].
        -- injection E as -> ->. exists 0%nat. split; reflexivity.
        -- apply IH in Hin. destruct Hin as (i & H1 & H2). exists (S i). split; assumption.
      * intros (i & H1 & H2). destruct i as [|i]; cbn [nth_error] in H1, H2.
        -- left. congruence.
        -- right. apply IH. exists i. split; assumption.
Qed.

Lemma in_selected (k : Z) (coords : list point) (labels : list Z) (p : point) :
  In p (map fst (filter (fun pl => snd pl =? k) (combine coords labels)))
  <-> exists i, nth_error coords i = Some p /\ nth_error labels i = Some k.
Proof.
  rewrite in_map_iff. split.
  - intros ([p' l] & E & Hin). cbn [fst] in E. subst p'.
    apply filter_In in Hin. destruct Hin as [Hin Hk]. cbn [snd] in Hk.
    apply Z.eqb_eq in Hk. subst l. now apply in_combine_nth_error.
  - intros Hi. exists (p, k). split; [reflexivity|].
    apply filter_In. split; [now apply in_combine_nth_error|]. apply Z.eqb_refl.
Qed.

Lemma length_selected (k : Z) (coords : list point) (labels : list Z) :
  length labels = length coords ->
  length (map fst (filter (fun pl => snd pl =? k) (combine coords labels)))
  = count_occ Z.eq_dec labels k.
Proof.
  rewrite length_map. revert labels.
  induction coords as [|p coords IH]; intros [|l labels] Hlen; try discriminate; [reflexivity|].
  cbn [combine filter snd count_occ]. injection Hlen as Hlen.
  destruct (Z.eqb_spec l k) as [->|Hne].
  - destruct (Z.eq_dec k k) as [_|]; [|contradiction]. cbn [length]. now rewrite IH.
  - destruct (Z.eq_dec l k) as [|_]; [contradiction|]. now apply IH.
Qed.

(** X9. With one label per point, [show_points] adds two scatter plots on top
    of what the axes hold, a green one and then a red one.  The green stars
    are exactly the points labelled 1 and the red stars exactly the points
    labelled 0, once per occurrence; a point with any other label, such as
    the placeholder label -1, gets no star. *)
Theorem show_points_by_label (coords : list point) (labels : list Z) (ax : axes)
    (marker_size : Z) :
  length labels = length coords ->
  exists pos neg,
    show_points coords labels ax marker_size
    = Returns (ax ++ [PathCollection (map fst pos) (map snd pos) green marker_size;
                      PathCollection (map fst neg) (map snd neg) red marker_size])
    /\ (forall p, In p pos
                  <-> exists i, nth_error coords i = Some p /\ nth_error labels i = Some 1)
    /\ (forall p, In p neg
                  <-> exists i, nth_error coords i = Some p /\ nth_error labels i = Some 0)
    /\ length pos = count_occ Z.eq_dec labels 1
    /\ length neg = count_occ Z.eq_dec labels 0.
Proof.
  intros Hlen.
  exists (map fst (filter (fun pl => snd pl =? 1) (combine coords labels))),
         (map fst (filter (fun pl => snd pl =? 0) (combine coords labels))).
  split.
  { unfold show_points, select_label. rewrite Hlen, Nat.eqb_refl. reflexivity. }
  split; [intros p; apply in_selected|].
  split; [intros p; apply in_selected|].
  split; apply length_selected; exact Hlen.
Qed.

Lemma show_points_by_label_witness :
  exists pos neg,
    show_points [window_point; np_zeros_point] [1; -1] [] 375
    = Returns ([] ++ [PathCollection (map fst pos) (map snd pos) green 375;
                      PathCollection (map fst neg) (map snd neg) red 375])
    /\ (forall p, In p pos
                  <-> exists i, nth_error [window_point; np_zeros_point] i = Some p
                                /\ nth_error [1; -1] i = Some 1)
    /\ (forall p, In p neg
                  <-> exists i, nth_error [window_point; np_zeros_point] i = Some p
                                /\ nth_error [1; -1] i = Some 0)
    /\ length pos = count_occ Z.eq_dec [1; -1] 1
    /\ length neg = count_occ Z.eq_dec [1; -1] 0.
Proof. apply (show_points_by_label [window_point; np_zeros_point] [1; -1] [] 375). reflexivity. Defined.

(** X10. When the number of labels differs from the number of points and
    there is at least one label, [show_points] raises IndexError at the first
    boolean index, whatever the axes and the marker size: no star is drawn.
    With no label at all NumPy accepts the empty index: two empty scatter
    plots are added. *)
Theorem show_points_length_mismatch (coords : list point) (labels : list Z) (ax : axes)
    (marker_size : Z) :
  length labels <> length coords ->
  (labels <> [] -> show_points coords labels ax marker_size = Throws IndexError)
  /\ (labels = [] ->
      show_points coords labels ax marker_size
      = Returns (ax ++ [PathCollection [] [] green marker_size;
                        PathCollection [] [] red marker_size])).
Proof.
  intros Hlen. unfold show_points, select_label. split.
  - intros Hne.
    destruct (Nat.eqb_spec (length labels) (length coords)); [contradiction|].
    destruct (Nat.eqb_spec (length labels) 0) as [E|_]; [|reflexivity].
    apply length_zero_iff_nil in E. contradiction.
  - intros ->. cbn [length]. rewrite Nat.eqb_refl, orb_true_r.
    replace (combine coords (@nil Z)) with (@nil (point * Z)) by (now destruct coords).
    reflexivity.
Qed.

Lemma show_points_length_mismatch_witness :
  ([1; 0] <> [] -> show_points [window_point] [1; 0] [] 375 = Throws IndexError)
  /\ ([1; 0] = [] ->
      show_points [window_point] [1; 0] [] 375
      = Returns ([] ++ [PathCollection [] [] green 375; PathCollection [] [] red 375])).
Proof. apply (show_points_length_mismatch [window_point] [1; 0] [] 375). discriminate. Defined.

(** ** The rectangle of [show_box] *)

Lemma wrap_signed_64_id (z : Z) :
  - 2 ^ 63 <= z < 2 ^ 63 -> wrap_signed 64 z = z.
Proof.
  intros Hz. unfold wrap_signed. change (64 - 1) with 63.
  rewrite Z.mod_small; [lia|].
  change (2 ^ 64) with (2 * 2 ^ 63). lia.
Qed.

(** X11. For a box of int64 coordinates whose differences fit in int64,
    [show_box] adds one rectangle on top of what the axes hold: its anchor is
    the first corner and anchor plus width and height is the second corner.
    Elements after the fourth are not read. *)
Theorem show_box_int64_rectangle (x0 y0 x1 y1 : Z) (more : list scalar) (ax : axes) :
  - 2 ^ 63 <= x1 - x0 < 2 ^ 63 -> - 2 ^ 63 <= y1 - y0 < 2 ^ 63 ->
  exists w h,
    show_box int64 ([SInt x0; SInt y0; SInt x1; SInt y1] ++ more) ax
    = Returns (ax ++ [Rectangle (SInt x0) (SInt y0) (SInt w) (SInt h)])
    /\ x0 + w = x1 /\ y0 + h = y1.
Proof.
  intros Hx Hy. exists (x1 - x0), (y1 - y0).
  split; [|lia].
  unfold show_box. cbn [app np_index nth_error np_bind np_sub int_of].
  now rewrite !wrap_signed_64_id.
Qed.

Lemma show_box_int64_rectangle_witness :
  exists w h,
    show_box int64 ([SInt 240; SInt 340; SInt 400; SInt 500] ++ []) []
    = Returns ([] ++ [Rectangle (SInt 240) (SInt 340) (SInt w) (SInt h)])
    /\ 240 + w = 400 /\ 340 + h = 500.
Proof.
  apply (show_box_int64_rectangle 240 340 400 500 [] []); vm_compute; split; discriminate || reflexivity.
Defined.

(** X12. On an array of fewer than four numbers, [show_box] raises IndexError
    and draws nothing. *)
Theorem show_box_too_short (dt : dtype) (flat : list scalar) (ax : axes) :
  dt <> bool_ -> (length flat < 4)%nat ->
  show_box dt flat ax = Throws IndexError.
Proof.
  intros Hdt Hlen. unfold show_box.
  destruct flat as [|x0 [|y0 [|x1 [|y1 rest]]]]; cbn [np_index nth_error np_bind];
    try reflexivity.
  - destruct dt; try reflexivity. contradiction.
  - cbn [length] in Hlen. lia.
Qed.

Lemma show_box_too_short_witness :
  show_box float32 [SInt 240; SInt 340] [] = Throws IndexError.
Proof.
  apply (show_box_too_short float32 [SInt 240; SInt 340] []); [discriminate | cbn [length]; lia].
Defined.

(** ** The figure of cell 35 *)

Lemma show_box_reads_first (dt : dtype) (b : box) (rest : list box) (ax : axes) :
  show_box dt (reshape_flat (b :: rest)) ax
  = (drawn <-- show_box dt (reshape_flat [b]) [] ;; Returns (ax ++ drawn)).
Proof.
  destruct b as [[x0 y0] [x1 y1]].
  unfold show_box, reshape_flat.
  cbn [flat_map app np_index nth_error np_bind fst snd].
  destruct (np_sub dt x1 x0) as [w|e]; cbn [np_bind]; [|reflexivity].
  destruct (np_sub dt y1 y0) as [h|e]; cbn [np_bind app]; reflexivity.
Qed.

(** X13. In cell 35 the whole array of detected boxes is passed to
    [show_box], which reads its first four numbers: the figure, and any
    exception, are those of the first box alone, whatever the other boxes
    are. *)
Theorem only_first_box_is_drawn resample (entries : list (list tensor)) (dt : dtype)
    (b : box) (rest : list box) (ax : axes) :
  show_detections resample entries dt (b :: rest) ax
  = show_detections resample entries dt [b] ax.
Proof.
  revert ax. induction entries as [|entry entries IH]; intros ax; [reflexivity|].
  cbn [show_detections].
  destruct entry as [|logits others]; [reflexivity|].
  destruct (postprocess_mask resample logits) as [mask|e]; [|reflexivity].
  destruct (show_mask mask ax None) as [drawn|e]; [|reflexivity].
  rewrite (show_box_reads_first dt b rest drawn), (show_box_reads_first dt b [] drawn).
  destruct (show_box dt (reshape_flat [b]) []) as [rect|e]; cbn [np_bind]; [|reflexivity].
  apply IH.
Qed.

(** The overlay that cell 35 draws for a map of logits: the default colour
    where the logit resized to 1024 x 1024 is positive. *)
Lemma show_mask_of_square_logits resample (logits : tensor) (ax : axes) :
  show_mask (threshold (resized resample (ops_cast_float32 logits) (1024, 1024))) ax None
  = Ok (ax ++ [AxesImage
                 (mask_image
                    (threshold (resized resample (ops_cast_float32 logits) (1024, 1024)))
                    default_color)]).
Proof. reflexivity. Qed.

(** X14. When every entry of [outputs["masks"]] starts with a square map of
    logits and the first box can be drawn, cell 35 completes and adds, for
    each entry in turn, the overlay of its first mask (the default colour
    where its logit resized to 1024 x 1024 is positive, nothing of the other
    masks of the entry) followed by a rectangle; all these rectangles are the
    same one, that of the first box. *)
Theorem detections_figure resample (firsts : list (tensor * list tensor)) (dt : dtype)
    (b : box) (rest : list box) (r : artist) (ax : axes) :
  Forall (fun entry => 0 < t_h (fst entry) < 2 ^ 1023 /\ t_w (fst entry) = t_h (fst entry))
         firsts ->
  show_box dt (reshape_flat [b]) [] = Returns [r] ->
  show_detections resample (map (fun entry => fst entry :: snd entry) firsts) dt (b :: rest) ax
  = inr (ax ++ flat_map
                 (fun entry =>
                    [AxesImage
                       (mask_image
                          (threshold
                             (resized resample (ops_cast_float32 (fst entry)) (1024, 1024)))
                          default_color);
                     r])
                 firsts).
Proof.
  intros Hall Hbox. revert ax.
  induction Hall as [|[logits others] firsts (HH & HW) _ IH]; intros ax.
  - cbn [map show_detections flat_map]. now rewrite app_nil_r.
  - cbn [map show_detections fst snd] in *.
    rewrite (postprocess_mask_square resample logits HH HW).
    rewrite show_mask_of_square_logits.
    rewrite show_box_reads_first, Hbox. cbn [np_bind].
    rewrite IH. cbn [flat_map fst]. f_equal.
    rewrite <- !app_assoc. reflexivity.
Qed.

Lemma detections_figure_witness :
  show_detections resample_nearest
    (map (fun entry => fst entry :: snd entry) [(mask_logits, []); (mask_logits, [mask_logits])])
    int64 (truck_box :: [((SInt 10, SInt 20), (SInt 30, SInt 40))]) []
  = inr ([] ++ flat_map
                 (fun entry =>
                    [AxesImage
                       (mask_image
                          (threshold
                             (resized resample_nearest (ops_cast_float32 (fst entry))
                                (1024, 1024)))
                          default_color);
                     Rectangle (SInt 240) (SInt 340) (SInt 160) (SInt 160)])
                 [(mask_logits, []); (mask_logits, [mask_logits])]).
Proof.
  apply (detections_figure resample_nearest [(mask_logits, []); (mask_logits, [mask_logits])]
           int64 truck_box [((SInt 10, SInt 20), (SInt 30, SInt 40))]
           (Rectangle (SInt 240) (SInt 340) (SInt 160) (SInt 160)) []).
  - repeat constructor; vm_compute; reflexivity.
  - vm_compute. reflexivity.
Defined.
